(** * CRUMBS: the message record, its wire codec, the command parser and the
      controller's request/response exchange

    The development embeds [CRUMBSMessage.h] (the message record and
    [CRUMBS_MESSAGE_SIZE]) and the master sketch [crumbs_master_test.ino]
    ([handleSerialInput], [parseSerialInput]).  The Arduino core ([String],
    [Serial], [Wire], the C library's [atol], [strtol], [atof]) is modelled
    in the first modules; the [CRUMBS] class itself ([encodeMessage],
    [decodeMessage], [sendMessage]) is modelled from the specification. *)

From Stdlib Require Import ZArith List Ascii String Bool Lia.
From Stdlib Require Import Floats.SpecFloat.
Import ListNotations.
Local Open Scope Z_scope.

(** ** Fixed-width integers *)

Module CInt.

(** [(uint8_t) x] *)
Definition to_uint8 (x : Z) : Z := x mod 256.

Definition LONG_MAX : Z := 2147483647.
Definition LONG_MIN : Z := -2147483648.

(** A value reduced to [long] (32 bits, two's complement). *)
Definition wrap_long (x : Z) : Z := (x + 2147483648) mod 4294967296 - 2147483648.

End CInt.

(** ** IEEE-754 binary32 values, held as their 32-bit pattern *)

Module Float32.

Definition float : Type := Z.

Definition prec : Z := 24.
Definition emax : Z := 128.

Definition sign_bit (s : bool) : Z := if s then 2147483648 else 0.

(** The bit pattern of a (canonical) binary32 value. *)
Definition bits_of_SF (x : spec_float) : float :=
  match x with
  | S754_zero s => sign_bit s
  | S754_infinity s => sign_bit s + 2139095040
  | S754_nan => 2143289344
  | S754_finite s m e => sign_bit s + (e + 149) * 8388608 + Zpos m
  end.

(** [0.0f] *)
Definition zero : float := 0.

(** The float nearest to an integer, as in [75.0f]. *)
Definition of_Z (n : Z) : float := bits_of_SF (binary_normalize prec emax n 0 false).

(** The binary32 value nearest to [(-1)^s * m * 10^e] (ties to even). *)
Definition of_decimal (s : bool) (m : Z) (e : Z) : spec_float :=
  match m with
  | Zpos p =>
      let num := Zpos p * 10 ^ Z.max e 0 in
      let den := 10 ^ Z.max (- e) 0 in
      match num, den with
      | Zpos n, Zpos d =>
          SFdiv prec emax (S754_finite s n 0) (S754_finite false d 0)
      | _, _ => S754_nan
      end
  | _ => S754_zero s
  end.

End Float32.

(** ** The C library's character classes and numeric conversions *)

Module LibC.

Definition code (c : ascii) : Z := Z.of_N (N_of_ascii c).

(** [isspace] in the C locale: space, \t, \n, \v, \f, \r. *)
Definition isspace (c : ascii) : bool :=
  (code c =? 32) || ((9 <=? code c) && (code c <=? 13)).

Definition isdigit (c : ascii) : bool :=
  (48 <=? code c) && (code c <=? 57).

Definition digit_value (c : ascii) : Z := code c - 48.

(** Value of a hexadecimal digit, if [c] is one. *)
Definition xdigit_value (c : ascii) : option Z :=
  if isdigit c then Some (code c - 48)
  else if (97 <=? code c) && (code c <=? 102) then Some (code c - 87)
  else if (65 <=? code c) && (code c <=? 70) then Some (code c - 55)
  else None.

Definition tolower (c : ascii) : ascii :=
  if (65 <=? code c) && (code c <=? 90)
  then ascii_of_N (N_of_ascii c + 32) else c.

Fixpoint skip_space (s : list ascii) : list ascii :=
  match s with
  | c :: s' => if isspace c then skip_space s' else s
  | [] => []
  end.

(** An optional sign: [true] for '-'. *)
Definition take_sign (s : list ascii) : bool * list ascii :=
  match s with
  | "-"%char :: s' => (true, s')
  | "+"%char :: s' => (false, s')
  | _ => (false, s)
  end.

(** The leading run of decimal digits of [s], folded into [acc], and the
    number of digits read, with what follows them. *)
Fixpoint read_digits (s : list ascii) (acc : Z) (n : Z) : Z * Z * list ascii :=
  match s with
  | c :: s' =>
      if isdigit c then read_digits s' (acc * 10 + digit_value c) (n + 1)
      else (acc, n, s)
  | [] => (acc, n, s)
  end.

Fixpoint read_xdigits (s : list ascii) (acc : Z) : Z :=
  match s with
  | c :: s' =>
      match xdigit_value c with
      | Some d => read_xdigits s' (acc * 16 + d)
      | None => acc
      end
  | [] => acc
  end.

(** [atol]: blanks, an optional sign, decimal digits; anything else ends
    the number, and no digit at all gives 0.  Past the range of [long] C
    leaves the result undefined: the accumulation is modelled in a [long]
    without an overflow check, as avr-libc does it, where other C libraries
    saturate.  The properties below that compute the value of a numeral
    keep it within [LONG_MAX], where every C library agrees. *)
Definition atol (s : list ascii) : Z :=
  let '(neg, s1) := take_sign (skip_space s) in
  let '(v, _, _) := read_digits s1 0 0 in
  CInt.wrap_long (if neg then - v else v).

(** [strtol(s, NULL, 16)]: blanks, an optional sign, an optional [0x] or
    [0X], hexadecimal digits; the result saturates at the [long] bounds. *)
Definition strtol16 (s : list ascii) : Z :=
  let '(neg, s1) := take_sign (skip_space s) in
  let s2 :=
    match s1 with
    | "0"%char :: "x"%char :: r => r
    | "0"%char :: "X"%char :: r => r
    | _ => s1
    end in
  let v := read_xdigits s2 0 in
  if neg then (if CInt.LONG_MIN <=? - v then - v else CInt.LONG_MIN)
  else (if v <=? CInt.LONG_MAX then v else CInt.LONG_MAX).

(** Does [s] begin with the letters of [w] (given in lower case), in
    either case? *)
Fixpoint has_word (w s : list ascii) : bool :=
  match w, s with
  | [], _ => true
  | a :: w', c :: s' => Ascii.eqb (tolower c) a && has_word w' s'
  | _ :: _, [] => false
  end.

(** The exponent part of a decimal numeral: [e] or [E], an optional sign
    and at least one digit; 0 when there is none. *)
Definition read_exponent (s : list ascii) : Z :=
  match s with
  | c :: s' =>
      if Ascii.eqb (tolower c) "e"%char then
        let '(neg, s1) := take_sign s' in
        let '(v, n, _) := read_digits s1 0 0 in
        if n =? 0 then 0 else if neg then - v else v
      else 0
  | [] => 0
  end.

(** [atof], with the result held in a [float]: blanks, an optional sign,
    then [inf], [infinity] or [nan] in either case, or a decimal numeral
    (digits with an optional point and an optional exponent).  When no
    number can be read the result is [0.0]. *)
Definition atof (s : list ascii) : Float32.float :=
  let '(neg, s1) := take_sign (skip_space s) in
  if has_word (list_ascii_of_string "inf") s1 then
    Float32.bits_of_SF (S754_infinity neg)
  else if has_word (list_ascii_of_string "nan") s1 then
    Float32.bits_of_SF S754_nan
  else
    let '(ip, ni, s2) := read_digits s1 0 0 in
    let '(m, nf, s3) :=
      match s2 with
      | "."%char :: r => read_digits r ip 0
      | _ => (ip, 0, s2)
      end in
    if ni + nf =? 0 then Float32.zero
    else Float32.bits_of_SF (Float32.of_decimal neg m (read_exponent s3 - nf)).

End LibC.

(** ** The Arduino [String] class (WString), as far as the sketch uses it *)

Module WString.

Definition t : Type := list ascii.

(** A string literal. *)
Definition lit (s : string) : t := list_ascii_of_string s.

Definition length (s : t) : Z := Z.of_nat (List.length s).

(** [s[i]]; a NUL character outside the string. *)
Definition charAt (s : t) (i : Z) : ascii :=
  if (0 <=? i) && (i <? length s) then nth (Z.to_nat i) s zero else zero.

(** [s.substring(left, right)]: the bounds are swapped when out of
    order, the result is empty when [left] is past the end, and [right]
    is clipped to the length. *)
Definition substring (s : t) (left right : Z) : t :=
  let lo := if right <? left then right else left in
  let hi := if right <? left then left else right in
  if length s <=? lo then []
  else
    let hi := if length s <? hi then length s else hi in
    firstn (Z.to_nat (hi - lo)) (skipn (Z.to_nat lo) s).

Fixpoint startsWith (s prefix : t) {struct prefix} : bool :=
  match prefix, s with
  | [], _ => true
  | p :: prefix', c :: s' => Ascii.eqb c p && startsWith s' prefix'
  | _ :: _, [] => false
  end.

(** [s.trim()]: leading and trailing blanks removed. *)
Definition trim (s : t) : t :=
  rev (LibC.skip_space (rev (LibC.skip_space s))).

Definition toInt (s : t) : Z := LibC.atol s.

Definition toFloat (s : t) : Float32.float := LibC.atof s.

End WString.

(** ** The message record ([CRUMBSMessage.h]) *)

Module Data6.

(** [float data[6]]: six slots, no more and no fewer. *)
Record t : Type := mk { d0 : Float32.float; d1 : Float32.float;
                        d2 : Float32.float; d3 : Float32.float;
                        d4 : Float32.float; d5 : Float32.float }.

Definition get (a : t) (i : Z) : Float32.float :=
  match i with
  | 0 => d0 a | 1 => d1 a | 2 => d2 a | 3 => d3 a | 4 => d4 a | 5 => d5 a
  | _ => Float32.zero
  end.

(** [a[i] = v]; the sketch only ever writes slots 0 to 5. *)
Definition set (a : t) (i : Z) (v : Float32.float) : t :=
  match i with
  | 0 => mk v (d1 a) (d2 a) (d3 a) (d4 a) (d5 a)
  | 1 => mk (d0 a) v (d2 a) (d3 a) (d4 a) (d5 a)
  | 2 => mk (d0 a) (d1 a) v (d3 a) (d4 a) (d5 a)
  | 3 => mk (d0 a) (d1 a) (d2 a) v (d4 a) (d5 a)
  | 4 => mk (d0 a) (d1 a) (d2 a) (d3 a) v (d5 a)
  | 5 => mk (d0 a) (d1 a) (d2 a) (d3 a) (d4 a) v
  | _ => a
  end.

Definition to_list (a : t) : list Float32.float :=
  [d0 a; d1 a; d2 a; d3 a; d4 a; d5 a].

Definition zeros : t :=
  mk Float32.zero Float32.zero Float32.zero Float32.zero Float32.zero Float32.zero.

End Data6.

Record CRUMBSMessage : Type := mkMessage {
  sliceID : Z;          (* uint8_t *)
  typeID : Z;           (* uint8_t *)
  commandType : Z;      (* uint8_t *)
  data : Data6.t;       (* float data[6] *)
  errorFlags : Z        (* uint8_t *)
}.

Definition CRUMBS_MESSAGE_SIZE : Z := 28.

Definition set_typeID (v : Z) (m : CRUMBSMessage) : CRUMBSMessage :=
  mkMessage (sliceID m) v (commandType m) (data m) (errorFlags m).

Definition set_commandType (v : Z) (m : CRUMBSMessage) : CRUMBSMessage :=
  mkMessage (sliceID m) (typeID m) v (data m) (errorFlags m).

Definition set_data (i : Z) (v : Float32.float) (m : CRUMBSMessage) : CRUMBSMessage :=
  mkMessage (sliceID m) (typeID m) (commandType m) (Data6.set (data m) i v) (errorFlags m).

Definition set_errorFlags (v : Z) (m : CRUMBSMessage) : CRUMBSMessage :=
  mkMessage (sliceID m) (typeID m) (commandType m) (data m) v.

(** The values a message can hold: three bytes, six 32-bit patterns, a byte. *)
Definition is_uint8 (x : Z) : Prop := 0 <= x < 256.
Definition is_float (x : Float32.float) : Prop := 0 <= x < 4294967296.

Definition valid_message (m : CRUMBSMessage) : Prop :=
  is_uint8 (sliceID m) /\ is_uint8 (typeID m) /\ is_uint8 (commandType m) /\
  Forall is_float (Data6.to_list (data m)) /\ is_uint8 (errorFlags m).

(** ** The wire codec *)

Module Codec.

(** The four bytes of a 32-bit pattern, least significant first. *)
Definition le_bytes (x : Z) : list Z :=
  [x mod 256; (x / 256) mod 256; (x / 65536) mod 256; (x / 16777216) mod 256].

Definition byte_at (buffer : list Z) (i : nat) : Z := nth i buffer 0.

Definition le_word (buffer : list Z) (i : nat) : Z :=
  byte_at buffer i + 256 * byte_at buffer (i + 1)
  + 65536 * byte_at buffer (i + 2) + 16777216 * byte_at buffer (i + 3).

(** Modelled from the spec: [CRUMBS::encodeMessage] is declared in
    [CRUMBS.h], which the sketch includes, and is not among the sources.
    Section 4.1: sliceID, typeID, commandType, the six floats and
    errorFlags are written in that order with no padding; section 6: each
    field is little-endian. *)
Definition encodeMessage (m : CRUMBSMessage) : list Z :=
  [sliceID m; typeID m; commandType m]
  ++ flat_map le_bytes (Data6.to_list (data m))
  ++ [errorFlags m].

(** Modelled from the spec: [CRUMBS::decodeMessage] is not among the
    sources.  Section 4.1: the decode fails when [length < 28], reads the
    fields in the order of the encoding, validates nothing and ignores
    bytes past the 28th. *)
Definition decodeMessage (buffer : list Z) (length : Z) : option CRUMBSMessage :=
  if length <? CRUMBS_MESSAGE_SIZE then None
  else Some (mkMessage
               (byte_at buffer 0) (byte_at buffer 1) (byte_at buffer 2)
               (Data6.mk (le_word buffer 3) (le_word buffer 7)
                         (le_word buffer 11) (le_word buffer 15)
                         (le_word buffer 19) (le_word buffer 23))
               (byte_at buffer 27)).

End Codec.

(** ** The board: console, bus and the trace of what the sketch did *)

(** What a [Serial.print] call was given. *)
Inductive printed : Type :=
| PText (s : string)                 (* F("...") *)
| PString (s : WString.t)            (* a String *)
| PDec (v : Z)                       (* an integer, in decimal *)
| PHex (v : Z)                       (* an integer, with HEX *)
| PFloat (v : Float32.float).

Inductive event : Type :=
| SerialPrint (p : printed)
| SerialPrintln (p : printed)
| WireRequestFrom (address quantity : Z)
| WireRead (b : Z)
| Delay (ms : Z)
| WireWrite (address : Z) (bytes : list Z).

Record Board : Type := mkBoard {
  serial_rx : list ascii;              (* characters waiting on the console *)
  wire_rx : list Z;                    (* bytes waiting in the bus receive buffer *)
  slave : Z -> Z -> list Z;            (* what a peripheral delivers to a read request *)
  trace : list event                   (* effects so far, oldest first *)
}.

(** State passing over the board. *)
Definition Sketch (A : Type) : Type := Board -> A * Board.

Definition ret {A} (a : A) : Sketch A := fun b => (a, b).

Definition bind {A B} (c : Sketch A) (k : A -> Sketch B) : Sketch B :=
  fun b => let '(a, b') := c b in k a b'.

Declare Scope sketch_scope.
Delimit Scope sketch_scope with sketch.
Notation "x <- c ;; k" := (bind c (fun x => k))
  (at level 61, c at next level, right associativity) : sketch_scope.
Notation "' p <- c ;; k" := (bind c (fun x => let 'p := x in k))
  (at level 61, p pattern, c at next level, right associativity) : sketch_scope.
Notation "c ;; k" := (bind c (fun _ => k))
  (at level 61, right associativity) : sketch_scope.
Local Open Scope sketch_scope.

Definition emit (e : event) : Sketch unit :=
  fun b => (tt, mkBoard (serial_rx b) (wire_rx b) (slave b) (trace b ++ [e])).

Module Serial.

Definition print (p : printed) : Sketch unit := emit (SerialPrint p).
Definition println (p : printed) : Sketch unit := emit (SerialPrintln p).

(** [Serial.available()]: is a character waiting? *)
Definition available : Sketch bool :=
  fun b => (match serial_rx b with [] => false | _ => true end, b).

(** The characters before the first [stop], and those after it. *)
Fixpoint split_at (stop : ascii) (s : list ascii) : list ascii * list ascii :=
  match s with
  | [] => ([], [])
  | c :: s' =>
      if Ascii.eqb c stop then ([], s')
      else let '(l, r) := split_at stop s' in (c :: l, r)
  end.

(** [Serial.readStringUntil(stop)]: the waiting characters up to [stop],
    which is consumed and not returned; everything when there is none. *)
Definition readStringUntil (stop : ascii) : Sketch WString.t :=
  fun b =>
    let '(l, r) := split_at stop (serial_rx b) in
    (l, mkBoard r (wire_rx b) (slave b) (trace b)).

End Serial.

Module Wire.

(** [Wire.requestFrom(address, quantity)]: one read transaction; what the
    peripheral delivered replaces the receive buffer. *)
Definition requestFrom (address quantity : Z) : Sketch unit :=
  fun b =>
    (tt, mkBoard (serial_rx b) (slave b address quantity) (slave b)
                 (trace b ++ [WireRequestFrom address quantity])).

Definition available : Sketch bool :=
  fun b => (match wire_rx b with [] => false | _ => true end, b).

(** [Wire.read()]: the next buffered byte, -1 when there is none. *)
Definition read : Sketch Z :=
  fun b =>
    match wire_rx b with
    | [] => (-1, b)
    | x :: rx =>
        (x, mkBoard (serial_rx b) rx (slave b) (trace b ++ [WireRead x]))
    end.

End Wire.

Definition delay (ms : Z) : Sketch unit := emit (Delay ms).

(** Modelled from the spec: [CRUMBS::sendMessage] is not among the sources.
    Section 4.3: the message is encoded and its 28 bytes are written to the
    bus address in one transaction. *)
Definition sendMessage (message : CRUMBSMessage) (targetAddress : Z) : Sketch unit :=
  emit (WireWrite targetAddress (Codec.encodeMessage message)).

(** ** Loops and arrays of the sketch *)

(** [for (i = from; ...; i++) body], run for [count] rounds. *)
Fixpoint for_each {S : Type} (from : Z) (count : nat) (body : Z -> S -> S) (s : S) : S :=
  match count with
  | O => s
  | S n => for_each (from + 1) n body (body from s)
  end.

Fixpoint for_each_do (from : Z) (count : nat) (body : Z -> Sketch unit) : Sketch unit :=
  match count with
  | O => ret tt
  | S n => body from ;; for_each_do (from + 1) n body
  end.

(** [buffer[i] = v] *)
Fixpoint store (buffer : list Z) (i : nat) (v : Z) : list Z :=
  match buffer, i with
  | [], _ => []
  | _ :: r, O => v :: r
  | x :: r, S j => x :: store r j v
  end.

(** An array of [n] cells that was never initialised: cell [i] holds
    [junk i]. *)
Definition uninitialised (n : nat) (junk : nat -> Z) : list Z := map junk (seq 0 n).

(** ** The master sketch ([crumbs_master_test.ino]) *)

(** The variables [parseSerialInput] works on: its two locals and its two
    reference parameters. *)
Module Vars.

Record t : Type := mk {
  fieldCount : Z;
  lastComma : Z;
  targetAddress : Z;
  message : CRUMBSMessage
}.

Definition set_lastComma (v : Z) (st : t) : t :=
  mk (fieldCount st) v (targetAddress st) (message st).

Definition set_targetAddress (v : Z) (st : t) : t :=
  mk (fieldCount st) (lastComma st) v (message st).

Definition set_message (m : CRUMBSMessage) (st : t) : t :=
  mk (fieldCount st) (lastComma st) (targetAddress st) m.

(** [fieldCount++] *)
Definition next_field (st : t) : t :=
  mk (fieldCount st + 1) (lastComma st) (targetAddress st) (message st).

End Vars.

(** The [switch (fieldCount)] of the parsing loop, followed by
    [fieldCount++]. *)
Definition take_field (value : WString.t) (st : Vars.t) : Vars.t :=
  let m := Vars.message st in
  Vars.next_field
    match Vars.fieldCount st with
    | 0 => Vars.set_targetAddress (CInt.to_uint8 (WString.toInt value)) st
    | 1 => Vars.set_message (set_typeID (CInt.to_uint8 (WString.toInt value)) m) st
    | 2 => Vars.set_message (set_commandType (CInt.to_uint8 (WString.toInt value)) m) st
    | 3 => Vars.set_message (set_data 0 (WString.toFloat value) m) st
    | 4 => Vars.set_message (set_data 1 (WString.toFloat value) m) st
    | 5 => Vars.set_message (set_data 2 (WString.toFloat value) m) st
    | 6 => Vars.set_message (set_data 3 (WString.toFloat value) m) st
    | 7 => Vars.set_message (set_data 4 (WString.toFloat value) m) st
    | 8 => Vars.set_message (set_data 5 (WString.toFloat value) m) st
    | 9 => Vars.set_message (set_errorFlags (CInt.to_uint8 (WString.toInt value)) m) st
    | _ => st
    end.

(** One round of [for (int i = 0; i <= input.length(); i++)]. *)
Definition parse_step (input : WString.t) (i : Z) (st : Vars.t) : Vars.t :=
  if (i =? WString.length input) || Ascii.eqb (WString.charAt input i) ","%char then
    let value := WString.substring input (Vars.lastComma st) i in
    take_field value (Vars.set_lastComma (i + 1) st)
  else st.

(** The assignments at the head of [parseSerialInput]; [sliceID] is not
    among them. *)
Definition init_message (message : CRUMBSMessage) : CRUMBSMessage :=
  let message := set_typeID 0 message in
  let message := set_commandType 0 message in
  let message := for_each 0 6 (fun i m => set_data i Float32.zero m) message in
  set_errorFlags 0 message.

(** The variables when the parsing loop has ended. *)
Definition parse_loop (input : WString.t) (targetAddress : Z) (message : CRUMBSMessage)
  : Vars.t :=
  for_each 0 (Z.to_nat (WString.length input + 1)) (parse_step input)
           (Vars.mk 0 0 targetAddress (init_message message)).

(** The end of [parseSerialInput], after the loop: the check of
    [fieldCount] and the echo of what was parsed. *)
Definition parse_report (st : Vars.t) : Sketch (bool * Z * CRUMBSMessage) :=
  let targetAddress := Vars.targetAddress st in
  let message := Vars.message st in
  if Vars.fieldCount st <? 4 then
    Serial.println (PText "Master: Not enough fields in input.") ;;
    ret (false, targetAddress, message)
  else
    Serial.println (PText "Master: Parsed input into CRUMBSMessage and target address.") ;;
    Serial.print (PText "Target Address: ") ;;
    Serial.println (PHex targetAddress) ;;
    Serial.print (PText "Parsed Message -> typeID: ") ;;
    Serial.print (PDec (typeID message)) ;;
    Serial.print (PText ", commandType: ") ;;
    Serial.print (PDec (commandType message)) ;;
    Serial.print (PText ", data: ") ;;
    for_each_do 0 6 (fun i =>
      Serial.print (PFloat (Data6.get (data message) i)) ;;
      Serial.print (PText " ")) ;;
    Serial.print (PText ", errorFlags: ") ;;
    Serial.println (PDec (errorFlags message)) ;;
    ret (true, targetAddress, message).

(** [bool parseSerialInput(const String &input, uint8_t &targetAddress,
    CRUMBSMessage &message)]: the result, with the two references as the
    call leaves them. *)
Definition parseSerialInput (input : WString.t) (targetAddress : Z) (message : CRUMBSMessage)
  : Sketch (bool * Z * CRUMBSMessage) :=
  parse_report (parse_loop input targetAddress message).

(** [while (Wire.available() && index < CRUMBS_MESSAGE_SIZE)
       responseBuffer[index++] = Wire.read();]
    Every round advances [index], so [CRUMBS_MESSAGE_SIZE] rounds are
    enough to reach the exit. *)
Fixpoint receive (rounds : nat) (responseBuffer : list Z) (index : Z)
  : Sketch (list Z * Z) :=
  match rounds with
  | O => ret (responseBuffer, index)
  | S n =>
      more <- Wire.available ;;
      if more && (index <? CRUMBS_MESSAGE_SIZE) then
        x <- Wire.read ;;
        receive n (store responseBuffer (Z.to_nat index) (CInt.to_uint8 x)) (index + 1)
      else ret (responseBuffer, index)
  end.

(** What the locals of [handleSerialInput] hold before they are assigned. *)
Record Indeterminate : Type := mkIndeterminate {
  responseBuffer0 : nat -> Z;
  targetAddress0 : Z;
  message0 : CRUMBSMessage
}.

(** The [request=] branch of [handleSerialInput], from the address text on. *)
Definition request_address (addressString : WString.t) : Z :=
  if WString.startsWith addressString (WString.lit "0x")
     || WString.startsWith addressString (WString.lit "0X")
  then CInt.to_uint8 (LibC.strtol16 addressString)
  else CInt.to_uint8 (WString.toInt addressString).

Definition report_response (decoded : option CRUMBSMessage) : Sketch unit :=
  match decoded with
  | Some response =>
      Serial.println (PText "Master: Decoded response:") ;;
      Serial.print (PText "typeID: ") ;;
      Serial.println (PDec (typeID response)) ;;
      Serial.print (PText "commandType: ") ;;
      Serial.println (PDec (commandType response)) ;;
      Serial.print (PText "data: ") ;;
      for_each_do 0 6 (fun i =>
        Serial.print (PFloat (Data6.get (data response) i)) ;;
        Serial.print (PText " ")) ;;
      Serial.println (PText "") ;;
      Serial.print (PText "errorFlags: ") ;;
      Serial.println (PDec (errorFlags response))
  | None =>
      Serial.println (PText "Master: Failed to decode response.")
  end.

Definition request_response (junk : Indeterminate) (targetAddress : Z)
  : Sketch (option CRUMBSMessage) :=
  let numBytes := CRUMBS_MESSAGE_SIZE in
  Wire.requestFrom targetAddress numBytes ;;
  delay 50 ;;
  '(responseBuffer, index) <-
     receive (Z.to_nat CRUMBS_MESSAGE_SIZE)
             (uninitialised (Z.to_nat CRUMBS_MESSAGE_SIZE) (responseBuffer0 junk)) 0 ;;
  Serial.print (PText "Master: Received ") ;;
  Serial.print (PDec index) ;;
  Serial.println (PText " bytes from slave.") ;;
  let decoded := Codec.decodeMessage responseBuffer index in
  report_response decoded ;;
  ret decoded.

(** [void handleSerialInput()] *)
Definition handleSerialInput (junk : Indeterminate) : Sketch unit :=
  waiting <- Serial.available ;;
  if waiting then
    input <- Serial.readStringUntil "010"%char ;;
    let input := WString.trim input in
    Serial.print (PText "Master: Received input from serial: ") ;;
    Serial.println (PString input) ;;
    if WString.startsWith input (WString.lit "request=") then
      let addressString :=
        WString.substring input (WString.length (WString.lit "request="))
                          (WString.length input) in
      let addressString := WString.trim addressString in
      let targetAddress := request_address addressString in
      Serial.print (PText "Master: Requesting data from address: 0x") ;;
      Serial.println (PHex targetAddress) ;;
      request_response junk targetAddress ;;
      ret tt
    else
      '(parseSuccess, targetAddress, message) <-
         parseSerialInput input (targetAddress0 junk) (message0 junk) ;;
      if (parseSuccess : bool) then
        sendMessage message targetAddress ;;
        Serial.println (PText "Master: Message sent based on serial input.")
      else
        Serial.println (PText "Master: Failed to parse serial input. Please check the format.")
  else ret tt.

(** ** Vocabulary of the specification *)

(** The comma-delimited fields of a line: one more than it has commas. *)
Fixpoint fields (s : list ascii) : list (list ascii) :=
  match s with
  | [] => [[]]
  | c :: s' =>
      if Ascii.eqb c ","%char then [] :: fields s'
      else match fields s' with
           | f :: fs => (c :: f) :: fs
           | [] => [[c]]
           end
  end.

Definition field_count (s : list ascii) : Z := Z.of_nat (List.length (fields s)).

Fixpoint commas (s : list ascii) : Z :=
  match s with
  | [] => 0
  | c :: s' => (if Ascii.eqb c ","%char then 1 else 0) + commas s'
  end.

(** The line cut before its [n]-th comma: its first [n] fields ([n >= 1]). *)
Fixpoint first_fields (n : nat) (s : list ascii) : list ascii :=
  match s with
  | [] => []
  | c :: s' =>
      if Ascii.eqb c ","%char then
        match n with
        | S (S n') => c :: first_fields (S n') s'
        | _ => []
        end
      else c :: first_fields n s'
  end.

(** The ten fields of the command line, by position, in what a parse
    returns: the address, then typeID, commandType, data0..data5 (as bit
    patterns) and errorFlags of the message. *)
Definition parsed_field (k : nat) (r : bool * Z * CRUMBSMessage) : Z :=
  let '(_, address, m) := r in
  match k with
  | 0%nat => address
  | 1%nat => typeID m
  | 2%nat => commandType m
  | 3%nat => Data6.d0 (data m)
  | 4%nat => Data6.d1 (data m)
  | 5%nat => Data6.d2 (data m)
  | 6%nat => Data6.d3 (data m)
  | 7%nat => Data6.d4 (data m)
  | 8%nat => Data6.d5 (data m)
  | 9%nat => errorFlags m
  | _ => 0
  end.

Definition succeeded (r : bool * Z * CRUMBSMessage) : bool := fst (fst r).

(** Is field [k] one of the float fields data0..data5? *)
Definition float_field (k : nat) : bool := (3 <=? k)%nat && (k <=? 8)%nat.

(** The text of a field once its leading blanks and sign are set aside. *)
Definition unsigned_part (s : list ascii) : list ascii :=
  snd (LibC.take_sign (LibC.skip_space s)).

(** Text the integer parser reads a number from: it starts with a digit. *)
Definition integer_text (s : list ascii) : bool :=
  match unsigned_part s with
  | c :: _ => LibC.isdigit c
  | [] => false
  end.




(** The value of a numeral from its digits, most significant first. *)
Definition numeral (base : Z) (digits : list Z) : Z :=
  fold_left (fun acc d => acc * base + d) digits 0.

(** The fields handed to the [switch], one after the other. *)
Definition take_fields (fs : list (list ascii)) (st : Vars.t) : Vars.t :=
  fold_left (fun st v => take_field v st) fs st.

(** The variables once every field of the line went through the [switch]. *)
Definition parsed_vars (input : WString.t) (ta : Z) (m : CRUMBSMessage) : Vars.t :=
  take_fields (fields input) (Vars.mk 0 0 ta (init_message m)).

(** The variables of [parseSerialInput] seen as the ten fields. *)
Definition var_field (k : nat) (st : Vars.t) : Z :=
  parsed_field k (true, Vars.targetAddress st, Vars.message st).

(** What the parser of position [k] makes of a text. *)
Definition convert (k : nat) (value : list ascii) : Z :=
  if float_field k then WString.toFloat value
  else CInt.to_uint8 (WString.toInt value).

(** [cur] put in front of the first of the fields [fs]. *)
Definition prepend (cur : list ascii) (fs : list (list ascii)) : list (list ascii) :=
  match fs with
  | f :: fs' => (cur ++ f) :: fs'
  | [] => [cur]
  end.

(** The console output that reports a decode result. *)
Definition response_report (decoded : option CRUMBSMessage) : list event :=
  match decoded with
  | Some response =>
      [SerialPrintln (PText "Master: Decoded response:");
       SerialPrint (PText "typeID: "); SerialPrintln (PDec (typeID response));
       SerialPrint (PText "commandType: "); SerialPrintln (PDec (commandType response));
       SerialPrint (PText "data: ")]
      ++ flat_map (fun v => [SerialPrint (PFloat v); SerialPrint (PText " ")])
                  (Data6.to_list (data response))
      ++ [SerialPrintln (PText "");
          SerialPrint (PText "errorFlags: "); SerialPrintln (PDec (errorFlags response))]
  | None => [SerialPrintln (PText "Master: Failed to decode response.")]
  end.

(** The bus side of one request to [address] on board [b]: the read
    request, the settling delay, and one read per byte taken. *)
Definition arrived (b : Board) (address : Z) : list Z := slave b address CRUMBS_MESSAGE_SIZE.

Definition collected (b : Board) (address : Z) : nat :=
  Nat.min (Z.to_nat CRUMBS_MESSAGE_SIZE) (List.length (arrived b address)).

Definition exchange (b : Board) (address : Z) : list event :=
  [WireRequestFrom address CRUMBS_MESSAGE_SIZE; Delay 50]
  ++ map WireRead (firstn (collected b address) (arrived b address)).

(** The response buffer once the bytes taken are stored: the bytes, then
    what the buffer held before. *)
Definition filled_buffer (junk : Indeterminate) (b : Board) (address : Z) : list Z :=
  map CInt.to_uint8 (firstn (collected b address) (arrived b address))
  ++ skipn (collected b address)
           (uninitialised (Z.to_nat CRUMBS_MESSAGE_SIZE) (responseBuffer0 junk)).

(** Digits and the numerals they spell. *)
Definition hex_digit (c : ascii) : bool :=
  match LibC.xdigit_value c with Some _ => true | None => false end.

Definition hex_value (ds : list ascii) : Z :=
  numeral 16 (map (fun c => match LibC.xdigit_value c with Some d => d | None => 0 end) ds).

Definition dec_value (ds : list ascii) : Z := numeral 10 (map LibC.digit_value ds).

(** [tail] does not go on with a character of the class [p]. *)
Definition stops (p : ascii -> bool) (tail : list ascii) : bool :=
  match tail with
  | c :: _ => negb (p c)
  | [] => true
  end.

(** The line [handleSerialInput] reads from the console of [b], trimmed. *)
Definition console_line (b : Board) : WString.t :=
  WString.trim (fst (Serial.split_at "010"%char (serial_rx b))).

(** A board with nothing waiting and nothing done yet, and a message
    variable still holding what an earlier use left in it. *)
Definition quiet_board : Board := mkBoard [] [] (fun _ _ => []) [].

Definition stale_message : CRUMBSMessage := mkMessage 7 9 9 (Data6.mk 1 2 3 4 5 6) 9.

(** A board with one line typed on the console and a given peripheral. *)
Definition console_board (line : string) (peripheral : Z -> Z -> list Z) : Board :=
  mkBoard (WString.lit line) [] peripheral [].

(** A peripheral that answers every request with five bytes only, and
    locals left over from earlier calls. *)
Definition short_peripheral (address quantity : Z) : list Z := [17; 34; 51; 68; 85].

Definition stale_locals : Indeterminate :=
  mkIndeterminate (fun i => 170 + Z.of_nat i) 99 stale_message.

Definition is_print (e : event) : bool :=
  match e with
  | SerialPrint _ | SerialPrintln _ => true
  | _ => false
  end.

(** What happened on the bus (and the waits in between), console output
    left out. *)
Definition bus_events (t : list event) : list event :=
  filter (fun e => negb (is_print e)) t.

(** The console output of the [request=] branch once the bytes are in. *)
Definition received_banner (index : Z) : list event :=
  [SerialPrint (PText "Master: Received "); SerialPrint (PDec index);
   SerialPrintln (PText " bytes from slave.")].

(** ** Vocabulary of the further properties *)

(** Fields written out as a line, a comma between each two. *)
Fixpoint join (fs : list (list ascii)) : list ascii :=
  match fs with
  | [] => []
  | [f] => f
  | f :: fs' => f ++ ","%char :: join fs'
  end.

Definition comma_free (f : list ascii) : bool :=
  forallb (fun c => negb (Ascii.eqb c ","%char)) f.

Definition newline_free (s : list ascii) : bool :=
  forallb (fun c => negb (Ascii.eqb c "010"%char)) s.

(** The console output at the end of [parseSerialInput]. *)
Definition parse_console (st : Vars.t) : list event :=
  if Vars.fieldCount st <? 4 then
    [SerialPrintln (PText "Master: Not enough fields in input.")]
  else
    [SerialPrintln (PText "Master: Parsed input into CRUMBSMessage and target address.");
     SerialPrint (PText "Target Address: ");
     SerialPrintln (PHex (Vars.targetAddress st));
     SerialPrint (PText "Parsed Message -> typeID: ");
     SerialPrint (PDec (typeID (Vars.message st)));
     SerialPrint (PText ", commandType: ");
     SerialPrint (PDec (commandType (Vars.message st)));
     SerialPrint (PText ", data: ")]
    ++ flat_map (fun v => [SerialPrint (PFloat v); SerialPrint (PText " ")])
                (Data6.to_list (data (Vars.message st)))
    ++ [SerialPrint (PText ", errorFlags: ");
        SerialPrintln (PDec (errorFlags (Vars.message st)))].

(** The echo of the line at the head of [handleSerialInput]. *)
Definition line_echo (input : WString.t) : list event :=
  [SerialPrint (PText "Master: Received input from serial: ");
   SerialPrintln (PString input)].

(** What [handleSerialInput] does with a parsed command line. *)
Definition command_outcome (st : Vars.t) : list event :=
  if 4 <=? Vars.fieldCount st then
    [WireWrite (Vars.targetAddress st) (Codec.encodeMessage (Vars.message st));
     SerialPrintln (PText "Master: Message sent based on serial input.")]
  else
    [SerialPrintln (PText "Master: Failed to parse serial input. Please check the format.")].

(** A board with another text waiting on its console. *)
Definition with_console (b : Board) (text : list ascii) : Board :=
  mkBoard text (wire_rx b) (slave b) (trace b).

(** A text with neither a leading nor a trailing blank. *)
Definition trimmed (s : list ascii) : Prop :=
  LibC.skip_space s = s /\ LibC.skip_space (rev s) = rev s.

(** An optional minus sign in front of a numeral. *)
Definition minus (neg : bool) : list ascii := if neg then ["-"%char] else [].

(** A peripheral that answers with the bytes of a given message and one
    byte more. *)
Definition echo_peripheral (m : CRUMBSMessage) (address quantity : Z) : list Z :=
  Codec.encodeMessage m ++ [0].

(** [void loop()]: one call of [handleSerialInput]. *)
Definition loop (junk : Indeterminate) : Sketch unit := handleSerialInput junk.

(** The board after [loop] ran once for each element of [junks], which
    gives what the locals of that round held at its start. *)
Fixpoint run_loop (junks : list Indeterminate) (b : Board) : Board :=
  match junks with
  | [] => b
  | junk :: junks' => run_loop junks' (snd (loop junk b))
  end.

(** Console text made of the given lines, each ended by a newline. *)
Definition typed (lines : list (list ascii)) : list ascii :=
  flat_map (fun l => l ++ ["010"%char]) lines.

(** The transactions on the bus: writes and read requests. *)
Definition is_transaction (e : event) : bool :=
  match e with
  | WireWrite _ _ | WireRequestFrom _ _ => true
  | _ => false
  end.

Definition transactions (t : list event) : nat := List.length (filter is_transaction t).

(** * Properties *)

(** ** The codec *)

Lemma le_bytes_sum (x : Z) :
  is_float x ->
  x mod 256 + 256 * ((x / 256) mod 256)
  + 65536 * ((x / 65536) mod 256) + 16777216 * ((x / 16777216) mod 256) = x.
Proof.
  unfold is_float. intros Hx.
  replace (x / 65536) with (x / 256 / 256)
    by (rewrite Z.div_div by lia; reflexivity).
  replace (x / 16777216) with (x / 256 / 256 / 256)
    by (rewrite !Z.div_div by lia; reflexivity).
  Z.to_euclidean_division_equations. lia.
Qed.

Lemma le_word_le_bytes (x : Z) (rest : list Z) :
  is_float x -> Codec.le_word (Codec.le_bytes x ++ rest) 0 = x.
Proof.
  intros Hx. unfold Codec.le_word, Codec.le_bytes, Codec.byte_at; simpl.
  now apply le_bytes_sum.
Qed.

Lemma encodeMessage_length (m : CRUMBSMessage) :
  Z.of_nat (List.length (Codec.encodeMessage m)) = CRUMBS_MESSAGE_SIZE.
Proof. reflexivity. Qed.

Lemma decodeMessage_short (buffer : list Z) (n : Z) :
  n < CRUMBS_MESSAGE_SIZE -> Codec.decodeMessage buffer n = None.
Proof.
  intros Hn. unfold Codec.decodeMessage.
  destruct (Z.ltb_spec n CRUMBS_MESSAGE_SIZE); [reflexivity | lia].
Qed.

Lemma le_bytes_cells (x : Z) : Forall is_uint8 (Codec.le_bytes x).
Proof.
  unfold Codec.le_bytes, is_uint8.
  repeat (apply Forall_cons; [apply Z.mod_pos_bound; lia |]). apply Forall_nil.
Qed.

Lemma encodeMessage_cells (m : CRUMBSMessage) :
  is_uint8 (sliceID m) -> is_uint8 (typeID m) -> is_uint8 (commandType m) ->
  is_uint8 (errorFlags m) ->
  Forall is_uint8 (Codec.encodeMessage m).
Proof.
  intros Hs Ht Hc He. unfold Codec.encodeMessage.
  repeat (apply Forall_cons; [assumption |]).
  apply Forall_app. split.
  - apply Forall_flat_map, Forall_forall. intros x _. apply le_bytes_cells.
  - apply Forall_cons; [assumption | apply Forall_nil].
Qed.

(** C1. Decoding, with length 28, the buffer that encoding a message gave
    succeeds and returns that very message, every field equal (the six
    floats as bit patterns), and the encoding is exactly 28 bytes: 28
    cells, each of them a byte. *)
Theorem decode_encode_roundtrip (m : CRUMBSMessage) :
  valid_message m ->
  Codec.decodeMessage (Codec.encodeMessage m) 28 = Some m
  /\ List.length (Codec.encodeMessage m) = 28%nat
  /\ Forall is_uint8 (Codec.encodeMessage m).
Proof.
  intros (Hs & Ht & Hc & Hd & He).
  split; [| split; [reflexivity | now apply encodeMessage_cells]].
  destruct m as [s t c [a0 a1 a2 a3 a4 a5] e].
  unfold Data6.to_list in Hd; cbn [data Data6.d0 Data6.d1 Data6.d2 Data6.d3 Data6.d4 Data6.d5] in Hd.
  repeat match goal with
         | H : Forall _ (_ :: _) |- _ => inversion H; subst; clear H
         end.
  change (Codec.decodeMessage
            (Codec.encodeMessage (mkMessage s t c (Data6.mk a0 a1 a2 a3 a4 a5) e)) 28)
    with (Some (mkMessage s t c
                  (Data6.mk (Codec.le_word (Codec.le_bytes a0 ++ []) 0)
                            (Codec.le_word (Codec.le_bytes a1 ++ []) 0)
                            (Codec.le_word (Codec.le_bytes a2 ++ []) 0)
                            (Codec.le_word (Codec.le_bytes a3 ++ []) 0)
                            (Codec.le_word (Codec.le_bytes a4 ++ []) 0)
                            (Codec.le_word (Codec.le_bytes a5 ++ []) 0)) e)).
  now rewrite !le_word_le_bytes.
Qed.

Lemma decode_encode_roundtrip_witness :
  let m := mkMessage 4 1 1 (Data6.mk 1117126656 1065353216 0 1115815936 2143289344 4286578688) 255 in
  Codec.decodeMessage (Codec.encodeMessage m) 28 = Some m
  /\ List.length (Codec.encodeMessage m) = 28%nat
  /\ Forall is_uint8 (Codec.encodeMessage m).
Proof.
  apply decode_encode_roundtrip.
  unfold valid_message, is_uint8, Data6.to_list; simpl.
  repeat (apply conj; [lia |]).
  split; [| lia].
  repeat (apply Forall_cons; [unfold is_float; lia |]).
  apply Forall_nil.
Defined.

(** ** Strings *)

Lemma charAt_middle (p r : list ascii) (c : ascii) :
  WString.charAt (p ++ c :: r) (Z.of_nat (List.length p)) = c.
Proof.
  unfold WString.charAt, WString.length.
  rewrite length_app; simpl List.length.
  destruct (Z.leb_spec 0 (Z.of_nat (List.length p))); [| lia].
  destruct (Z.ltb_spec (Z.of_nat (List.length p))
                       (Z.of_nat (List.length p + S (List.length r)))); [| lia].
  simpl. rewrite Nat2Z.id. apply nth_middle.
Qed.

Lemma substring_middle (p cur r : list ascii) :
  WString.substring (p ++ cur ++ r) (Z.of_nat (List.length p))
                    (Z.of_nat (List.length (p ++ cur))) = cur.
Proof.
  unfold WString.substring, WString.length.
  rewrite !length_app.
  destruct (Z.ltb_spec (Z.of_nat (List.length p + List.length cur))
                       (Z.of_nat (List.length p))); [lia |].
  destruct (Z.leb_spec (Z.of_nat (List.length p + (List.length cur + List.length r)))
                       (Z.of_nat (List.length p))) as [Hle | Hlt].
  - destruct cur; [reflexivity | simpl in Hle; lia].
  - destruct (Z.ltb_spec (Z.of_nat (List.length p + (List.length cur + List.length r)))
                         (Z.of_nat (List.length p + List.length cur))); [lia |].
    rewrite Nat2Z.id.
    replace (Z.to_nat (Z.of_nat (List.length p + List.length cur) - Z.of_nat (List.length p)))
      with (List.length cur) by lia.
    rewrite skipn_app, skipn_all, Nat.sub_diag; simpl.
    rewrite firstn_app, firstn_all, Nat.sub_diag; simpl.
    apply app_nil_r.
Qed.

(** ** Fields of a line *)

Lemma fields_not_nil (s : list ascii) : fields s <> [].
Proof.
  destruct s as [| c s]; simpl; [discriminate |].
  destruct (Ascii.eqb c ","); [discriminate |].
  destruct (fields s); discriminate.
Qed.

Lemma field_count_commas (s : list ascii) : field_count s = commas s + 1.
Proof.
  unfold field_count.
  induction s as [| c s IH]; simpl; [reflexivity |].
  destruct (Ascii.eqb c ",").
  - simpl List.length. lia.
  - destruct (fields s) eqn:E; [now apply fields_not_nil in E |].
    simpl List.length in *. lia.
Qed.

Lemma prepend_nil (fs : list (list ascii)) : fs <> [] -> prepend [] fs = fs.
Proof. destruct fs; [congruence | reflexivity]. Qed.

Lemma prepend_snoc (cur : list ascii) (c : ascii) (s : list ascii) :
  Ascii.eqb c "," = false ->
  prepend cur (fields (c :: s)) = prepend (cur ++ [c]) (fields s).
Proof.
  intros Hc. simpl. rewrite Hc.
  destruct (fields s) eqn:E; simpl; [reflexivity |].
  now rewrite <- app_assoc.
Qed.

Lemma fields_first_fields (n : nat) (s : list ascii) :
  fields (first_fields (S n) s) = firstn (S n) (fields s).
Proof.
  revert n. induction s as [| c s IH]; intros n;
    [simpl; now rewrite firstn_nil |].
  cbn [first_fields fields].
  destruct (Ascii.eqb c ",") eqn:Hc.
  - destruct n as [| n].
    + reflexivity.
    + cbn [fields]. rewrite Hc, IH. reflexivity.
  - cbn [fields]. rewrite Hc, IH.
    destruct (fields s) eqn:E; [now apply fields_not_nil in E |].
    reflexivity.
Qed.

(** ** The parsing loop *)

Lemma take_field_set_lastComma (v : list ascii) (l : Z) (st : Vars.t) :
  take_field v (Vars.set_lastComma l st) = Vars.set_lastComma l (take_field v st).
Proof.
  unfold take_field; cbn [Vars.set_lastComma Vars.fieldCount Vars.message].
  destruct (Vars.fieldCount st) as [| q | q]; try reflexivity.
  do 4 (try destruct q as [q | q |]); reflexivity.
Qed.

Lemma take_fields_set_lastComma (fs : list (list ascii)) (l : Z) (st : Vars.t) :
  take_fields fs (Vars.set_lastComma l st) = Vars.set_lastComma l (take_fields fs st).
Proof.
  revert st. induction fs as [| f fs IH]; intros st; [reflexivity |].
  cbn [take_fields fold_left] in *.
  rewrite take_field_set_lastComma. apply IH.
Qed.

Lemma set_lastComma_twice (l l' : Z) (st : Vars.t) :
  Vars.set_lastComma l (Vars.set_lastComma l' st) = Vars.set_lastComma l st.
Proof. reflexivity. Qed.

(** From any point of the loop on, the rounds left hand the [switch] the
    text read so far followed by the rest of its field, then the fields
    after it. *)
Lemma parse_rounds (rest pre cur : list ascii) (st : Vars.t) :
  Vars.lastComma st = Z.of_nat (List.length pre) ->
  for_each (Z.of_nat (List.length (pre ++ cur))) (S (List.length rest))
           (parse_step (pre ++ cur ++ rest)) st
  = Vars.set_lastComma (Z.of_nat (List.length (pre ++ cur ++ rest)) + 1)
      (take_fields (prepend cur (fields rest)) st).
Proof.
  revert pre cur st.
  induction rest as [| c rest IH]; intros pre cur st Hlast.
  - cbn [for_each fields prepend take_fields fold_left].
    unfold parse_step, WString.length.
    rewrite !app_nil_r, Z.eqb_refl, orb_true_l, Hlast.
    pose proof (substring_middle pre cur []) as Hsub.
    rewrite !app_nil_r in Hsub. rewrite Hsub.
    apply take_field_set_lastComma.
  - change (for_each ?i (S (List.length (c :: rest))) ?f st)
      with (for_each (i + 1) (S (List.length rest)) f (f i st)).
    assert (Hstep : parse_step (pre ++ cur ++ c :: rest)
                               (Z.of_nat (List.length (pre ++ cur))) st
                    = if Ascii.eqb c ","
                      then take_field cur
                             (Vars.set_lastComma (Z.of_nat (List.length (pre ++ cur)) + 1) st)
                      else st).
    { unfold parse_step, WString.length.
      replace (Z.of_nat (List.length (pre ++ cur)) =?
               Z.of_nat (List.length (pre ++ cur ++ c :: rest))) with false
        by (symmetry; apply Z.eqb_neq; rewrite !length_app; simpl; lia).
      rewrite orb_false_l.
      replace (pre ++ cur ++ c :: rest) with ((pre ++ cur) ++ c :: rest)
        by (now rewrite <- app_assoc).
      rewrite charAt_middle.
      destruct (Ascii.eqb c ","); [| reflexivity].
      rewrite Hlast, <- app_assoc, substring_middle. reflexivity. }
    rewrite Hstep.
    destruct (Ascii.eqb c ",") eqn:Hc.
    + specialize (IH (pre ++ cur ++ [c]) []
                     (take_field cur
                        (Vars.set_lastComma (Z.of_nat (List.length (pre ++ cur)) + 1) st))).
      replace ((pre ++ cur ++ [c]) ++ [] ++ rest) with (pre ++ cur ++ c :: rest) in IH
        by (now rewrite <- !app_assoc).
      replace (Z.of_nat (List.length ((pre ++ cur ++ [c]) ++ [])))
        with (Z.of_nat (List.length (pre ++ cur)) + 1) in IH
        by (rewrite !length_app; simpl; lia).
      rewrite IH.
      * rewrite prepend_nil by apply fields_not_nil.
        rewrite take_field_set_lastComma, take_fields_set_lastComma, set_lastComma_twice.
        cbn [fields]. rewrite Hc. cbn [prepend take_fields fold_left].
        now rewrite app_nil_r.
      * rewrite take_field_set_lastComma. cbn [Vars.set_lastComma Vars.lastComma].
        rewrite !length_app; simpl; lia.
    + specialize (IH pre (cur ++ [c]) st Hlast).
      replace (pre ++ (cur ++ [c]) ++ rest) with (pre ++ cur ++ c :: rest) in IH
        by (now rewrite <- !app_assoc).
      replace (Z.of_nat (List.length (pre ++ cur ++ [c])))
        with (Z.of_nat (List.length (pre ++ cur)) + 1) in IH
        by (rewrite !length_app; simpl; lia).
      rewrite IH, prepend_snoc by assumption. reflexivity.
Qed.

(** The loop hands the [switch] the fields of the line, in order. *)
Lemma parse_loop_fields (input : WString.t) (ta : Z) (m : CRUMBSMessage) :
  parse_loop input ta m
  = Vars.set_lastComma (WString.length input + 1)
      (take_fields (fields input) (Vars.mk 0 0 ta (init_message m))).
Proof.
  unfold parse_loop, WString.length.
  replace (Z.to_nat (Z.of_nat (List.length input) + 1)) with (S (List.length input)) by lia.
  pose proof (parse_rounds input [] [] (Vars.mk 0 0 ta (init_message m)) eq_refl) as H.
  cbn [app List.length Z.of_nat] in H. rewrite H.
  now rewrite prepend_nil by apply fields_not_nil.
Qed.

(** ** What the [switch] does to the variables *)

Ltac field_cases st :=
  let q := fresh "q" in
  let E := fresh "E" in
  destruct (Vars.fieldCount st) as [| q | q] eqn:E;
  [ | do 4 (try destruct q as [q | q |]) | ].

Lemma take_field_count (v : list ascii) (st : Vars.t) :
  Vars.fieldCount (take_field v st) = Vars.fieldCount st + 1.
Proof.
  unfold take_field. field_cases st; cbn; rewrite ?E; reflexivity.
Qed.

Lemma take_fields_cons (f : list ascii) (fs : list (list ascii)) (st : Vars.t) :
  take_fields (f :: fs) st = take_fields fs (take_field f st).
Proof. reflexivity. Qed.

Lemma take_fields_count (fs : list (list ascii)) (st : Vars.t) :
  Vars.fieldCount (take_fields fs st) = Vars.fieldCount st + Z.of_nat (List.length fs).
Proof.
  revert st. induction fs as [| f fs IH]; intros st.
  - simpl. lia.
  - rewrite take_fields_cons, IH, take_field_count.
    simpl List.length. lia.
Qed.

Lemma take_fields_app (fs gs : list (list ascii)) (st : Vars.t) :
  take_fields (fs ++ gs) st = take_fields gs (take_fields fs st).
Proof. apply fold_left_app. Qed.

(** From the eleventh field on, the [switch] takes its default branch. *)
Lemma take_field_extra (v : list ascii) (st : Vars.t) :
  10 <= Vars.fieldCount st -> take_field v st = Vars.next_field st.
Proof.
  intros H. unfold take_field.
  field_cases st; try reflexivity; lia.
Qed.

Lemma take_fields_extra (fs : list (list ascii)) (st : Vars.t) :
  10 <= Vars.fieldCount st ->
  Vars.targetAddress (take_fields fs st) = Vars.targetAddress st
  /\ Vars.message (take_fields fs st) = Vars.message st.
Proof.
  revert st. induction fs as [| f fs IH]; intros st H; [split; reflexivity |].
  rewrite take_fields_cons, take_field_extra by assumption.
  destruct (IH (Vars.next_field st)) as [Ha Hm]; [simpl; lia |].
  rewrite Ha, Hm. split; reflexivity.
Qed.

(** Only the first ten fields of a line reach the address and the message. *)
Lemma take_fields_first_ten (fs : list (list ascii)) (st : Vars.t) :
  Vars.fieldCount st = 0 ->
  Vars.targetAddress (take_fields fs st) = Vars.targetAddress (take_fields (firstn 10 fs) st)
  /\ Vars.message (take_fields fs st) = Vars.message (take_fields (firstn 10 fs) st).
Proof.
  intros H0.
  destruct (Nat.le_gt_cases (List.length fs) 10) as [Hle | Hgt].
  - rewrite firstn_all2 by assumption. split; reflexivity.
  - rewrite <- (firstn_skipn 10 fs) at 1 3.
    rewrite take_fields_app.
    apply take_fields_extra.
    rewrite take_fields_count, H0, length_firstn. lia.
Qed.

(** One field taken: position [c] receives its value, the others stay. *)
Lemma take_field_view (v : list ascii) (st : Vars.t) (c j : nat) :
  Vars.fieldCount st = Z.of_nat c -> (j <= 9)%nat ->
  var_field j (take_field v st)
  = if (j =? c)%nat then convert j v else var_field j st.
Proof.
  intros Hc Hj.
  destruct (Nat.le_gt_cases 10 c) as [Hbig | Hsmall].
  - rewrite take_field_extra by lia.
    destruct (Nat.eqb_spec j c); [lia | reflexivity].
  - unfold take_field. rewrite Hc.
    do 10 (destruct c as [| c]; [do 10 (destruct j as [| j]; [reflexivity |]); lia |]).
    lia.
Qed.

Lemma take_fields_view (fs : list (list ascii)) (st : Vars.t) (c j : nat) :
  Vars.fieldCount st = Z.of_nat c -> (j <= 9)%nat ->
  var_field j (take_fields fs st)
  = if (c <=? j)%nat
    then match nth_error fs (j - c) with
         | Some v => convert j v
         | None => var_field j st
         end
    else var_field j st.
Proof.
  revert st c. induction fs as [| f fs IH]; intros st c Hc Hj.
  - change (take_fields [] st) with st. rewrite nth_error_nil.
    now destruct (c <=? j)%nat.
  - rewrite take_fields_cons.
    rewrite (IH (take_field f st) (S c))
      by (rewrite ?take_field_count, ?Hc; lia).
    rewrite (take_field_view f st c j Hc Hj).
    destruct (Nat.leb_spec (S c) j) as [H1 | H1].
    + destruct (Nat.leb_spec c j); [| lia].
      replace (j - c)%nat with (S (j - S c)) by lia. cbn [nth_error].
      destruct (Nat.eqb_spec j c); [lia |]. reflexivity.
    + destruct (Nat.eqb_spec j c) as [-> | Hne].
      * rewrite Nat.leb_refl, Nat.sub_diag. reflexivity.
      * destruct (Nat.leb_spec c j); [lia | reflexivity].
Qed.

(** ** The assignments at the head of [parseSerialInput] *)

Lemma init_message_eq (m : CRUMBSMessage) :
  init_message m = mkMessage (sliceID m) 0 0 Data6.zeros 0.
Proof. reflexivity. Qed.

(** ** [parseSerialInput] as a whole *)

Lemma parse_report_value (st : Vars.t) (b : Board) :
  fst (parse_report st b)
  = (4 <=? Vars.fieldCount st, Vars.targetAddress st, Vars.message st).
Proof.
  unfold parse_report.
  destruct (Z.ltb_spec (Vars.fieldCount st) 4);
    destruct (Z.leb_spec 4 (Vars.fieldCount st)); try lia; reflexivity.
Qed.

Lemma parse_report_ext (st st' : Vars.t) :
  (Vars.fieldCount st <? 4) = (Vars.fieldCount st' <? 4) ->
  Vars.targetAddress st = Vars.targetAddress st' ->
  Vars.message st = Vars.message st' ->
  parse_report st = parse_report st'.
Proof.
  intros Hc Ha Hm. unfold parse_report. now rewrite Hc, Ha, Hm.
Qed.

Lemma parsed_vars_count (input : WString.t) (ta : Z) (m : CRUMBSMessage) :
  Vars.fieldCount (parsed_vars input ta m) = field_count input.
Proof. unfold parsed_vars. now rewrite take_fields_count. Qed.

Lemma parse_value (input : WString.t) (ta : Z) (m : CRUMBSMessage) (b : Board) :
  fst (parseSerialInput input ta m b)
  = (4 <=? field_count input,
     Vars.targetAddress (parsed_vars input ta m),
     Vars.message (parsed_vars input ta m)).
Proof.
  unfold parseSerialInput.
  rewrite parse_report_value, parse_loop_fields.
  fold (parsed_vars input ta m).
  cbn [Vars.set_lastComma Vars.fieldCount Vars.targetAddress Vars.message].
  now rewrite parsed_vars_count.
Qed.

(** A field the line has is converted by the parser of its position; a
    field it lacks is as the head of [parseSerialInput] left it. *)
Lemma parse_field (input : WString.t) (ta : Z) (m : CRUMBSMessage) (b : Board) (j : nat) :
  (j <= 9)%nat ->
  parsed_field j (fst (parseSerialInput input ta m b))
  = match nth_error (fields input) j with
    | Some v => convert j v
    | None => var_field j (Vars.mk 0 0 ta (init_message m))
    end.
Proof.
  intros Hj. rewrite parse_value.
  change (parsed_field j (?ok, Vars.targetAddress ?st, Vars.message ?st))
    with (var_field j st).
  unfold parsed_vars.
  rewrite (take_fields_view (fields input) (Vars.mk 0 0 ta (init_message m)) 0 j)
    by (reflexivity || assumption).
  now rewrite Nat.sub_0_r.
Qed.

Lemma parse_sliceID (input : WString.t) (ta : Z) (m : CRUMBSMessage) (b : Board) :
  sliceID (snd (fst (parseSerialInput input ta m b))) = sliceID m.
Proof.
  rewrite parse_value. cbn [fst snd]. unfold parsed_vars.
  assert (H : forall fs st, sliceID (Vars.message (take_fields fs st))
                            = sliceID (Vars.message st)).
  { induction fs as [| f fs IH]; intros st; [reflexivity |].
    rewrite take_fields_cons, IH. unfold take_field.
    field_cases st; reflexivity. }
  now rewrite H.
Qed.

(** ** The numeric parsers on text that is not a number *)

Lemma read_digits_none (s : list ascii) :
  match s with c :: _ => LibC.isdigit c | [] => false end = false ->
  LibC.read_digits s 0 0 = (0, 0, s).
Proof.
  destruct s as [| c s]; [reflexivity |]. simpl. now intros ->.
Qed.

Lemma toInt_non_numeric (v : list ascii) :
  integer_text v = false -> WString.toInt v = 0.
Proof.
  unfold integer_text, unsigned_part, WString.toInt, LibC.atol.
  destruct (LibC.take_sign (LibC.skip_space v)) as [neg s1]. cbn [snd].
  intros H. rewrite (read_digits_none s1 H).
  now destruct neg.
Qed.



(** ** Main results on [parseSerialInput] *)

(** C2. The specification has every field of the message reset before the
    line is parsed, [sliceID] included.  The head of [parseSerialInput]
    resets typeID, commandType, the six data slots and errorFlags and
    leaves [sliceID] out: on "8,1,1,75.0", called with a message variable
    whose [sliceID] holds 7, the parse succeeds and returns [sliceID] 7,
    not 0, and [handleSerialInput] puts that byte on the bus. *)
Theorem parse_leaves_sliceID_unset :
  let r := fst (parseSerialInput (WString.lit "8,1,1,75.0") 0 stale_message quiet_board) in
  succeeded r = true
  /\ sliceID (snd r) = 7
  /\ sliceID (snd r) <> 0
  /\ init_message stale_message = mkMessage 7 0 0 Data6.zeros 0
  /\ bus_events (trace (snd (handleSerialInput stale_locals
                               (console_board "8,1,1,75.0" short_peripheral))))
     = [WireWrite 8 [7; 1; 1; 0; 0; 150; 66; 0; 0; 0; 0; 0; 0; 0; 0;
                     0; 0; 0; 0; 0; 0; 0; 0; 0; 0; 0; 0; 0]].
Proof.
  vm_compute. repeat split; discriminate.
Qed.

(** C4. The parse fails exactly when the line has fewer than 4
    comma-delimited fields, and then says so on the console; with 4 fields
    or more it succeeds, whatever the text of the fields. *)
Theorem parse_succeeds_iff_four_fields
  (input : WString.t) (ta : Z) (m : CRUMBSMessage) (b : Board) :
  succeeded (fst (parseSerialInput input ta m b)) = (4 <=? field_count input)
  /\ (field_count input < 4 ->
      trace (snd (parseSerialInput input ta m b))
      = trace b ++ [SerialPrintln (PText "Master: Not enough fields in input.")]).
Proof.
  split.
  - now rewrite parse_value.
  - intros Hfew. unfold parseSerialInput, parse_report.
    rewrite parse_loop_fields. fold (parsed_vars input ta m).
    cbn [Vars.set_lastComma Vars.fieldCount].
    rewrite parsed_vars_count.
    destruct (Z.ltb_spec (field_count input) 4); [reflexivity | lia].
Qed.

Lemma parse_succeeds_iff_four_fields_witness :
  succeeded (fst (parseSerialInput (WString.lit "8,1") 0 stale_message quiet_board)) = false
  /\ trace (snd (parseSerialInput (WString.lit "8,1") 0 stale_message quiet_board))
     = [SerialPrintln (PText "Master: Not enough fields in input.")].
Proof.
  destruct (parse_succeeds_iff_four_fields (WString.lit "8,1") 0 stale_message quiet_board)
    as [Hok Hlog].
  split.
  - rewrite Hok. reflexivity.
  - apply Hlog. reflexivity.
Defined.




(** C8. A line that supplies only its first k fields, 4 <= k <= 9, parses
    with success, and every field it leaves out is 0 (0.0 for a float
    field).  "8,1,1,75.0" gives address 8, typeID 1, commandType 1,
    data0 = 75.0, data1..data5 = 0.0, errorFlags 0, and success. *)
Theorem parse_omitted_fields_default_to_zero :
  (forall (input : WString.t) (ta : Z) (m : CRUMBSMessage) (b : Board) (k : nat),
      field_count input = Z.of_nat k -> (4 <= k <= 9)%nat ->
      let r := fst (parseSerialInput input ta m b) in
      succeeded r = true
      /\ forall j : nat, (k <= j <= 9)%nat -> parsed_field j r = 0)
  /\ (forall (ta : Z) (m : CRUMBSMessage) (b : Board),
         fst (parseSerialInput (WString.lit "8,1,1,75.0") ta m b)
         = (true, 8,
            mkMessage (sliceID m) 1 1
                      (Data6.mk (Float32.of_Z 75) Float32.zero Float32.zero
                                Float32.zero Float32.zero Float32.zero) 0)).
Proof.
  split.
  - intros input ta m b k Hk Hrange r. split.
    + unfold r. rewrite parse_value. cbn [succeeded fst].
      apply Z.leb_le. lia.
    + intros j Hj. unfold r. rewrite parse_field by lia.
      assert (Hnone : nth_error (fields input) j = None).
      { apply nth_error_None. unfold field_count in Hk. lia. }
      rewrite Hnone.
      do 4 (destruct j as [| j]; [lia |]).
      do 6 (destruct j as [| j]; [reflexivity |]). lia.
  - intros ta m b. rewrite parse_value. vm_compute. reflexivity.
Qed.

Lemma parse_omitted_fields_default_to_zero_witness :
  let r := fst (parseSerialInput (WString.lit "8,1,1,75.0,2.5,1e3")
                                 5 stale_message quiet_board) in
  succeeded r = true
  /\ parsed_field 6 r = 0 /\ parsed_field 7 r = 0 /\ parsed_field 8 r = 0
  /\ parsed_field 9 r = 0.
Proof.
  intros r.
  destruct (proj1 parse_omitted_fields_default_to_zero
                  (WString.lit "8,1,1,75.0,2.5,1e3") 5 stale_message quiet_board 6%nat)
    as [Hok Hzero].
  - reflexivity.
  - lia.
  - split; [exact Hok |]. repeat split; apply Hzero; lia.
Defined.

(** C9. A line of more than 10 fields parses as the same line cut after
    its tenth field does: same result, same address, same message, and the
    same console output. *)
Theorem parse_ignores_fields_after_tenth
  (input : WString.t) (ta : Z) (m : CRUMBSMessage) (b : Board) :
  10 < field_count input ->
  parseSerialInput input ta m b = parseSerialInput (first_fields 10 input) ta m b.
Proof.
  intros Hmany. unfold parseSerialInput.
  enough (parse_report (parse_loop input ta m)
          = parse_report (parse_loop (first_fields 10 input) ta m)) as -> by reflexivity.
  apply parse_report_ext; rewrite !parse_loop_fields;
    fold (parsed_vars input ta m); fold (parsed_vars (first_fields 10 input) ta m);
    cbn [Vars.set_lastComma Vars.fieldCount Vars.targetAddress Vars.message].
  - rewrite !parsed_vars_count.
    assert (H10 : field_count (first_fields 10 input) = 10).
    { unfold field_count in *. rewrite fields_first_fields, length_firstn. lia. }
    rewrite H10.
    destruct (Z.ltb_spec (field_count input) 4); [lia | reflexivity].
  - unfold parsed_vars. rewrite fields_first_fields.
    now apply take_fields_first_ten.
  - unfold parsed_vars. rewrite fields_first_fields.
    now apply take_fields_first_ten.
Qed.

Lemma parse_ignores_fields_after_tenth_witness :
  first_fields 10 (WString.lit "8,1,1,75.0,1.0,0.0,65.0,2.0,7.0,3,44,,5.5")
  = WString.lit "8,1,1,75.0,1.0,0.0,65.0,2.0,7.0,3"
  /\ parseSerialInput (WString.lit "8,1,1,75.0,1.0,0.0,65.0,2.0,7.0,3,44,,5.5")
                      5 stale_message quiet_board
     = parseSerialInput (first_fields 10 (WString.lit "8,1,1,75.0,1.0,0.0,65.0,2.0,7.0,3,44,,5.5"))
                        5 stale_message quiet_board.
Proof.
  split; [reflexivity |].
  apply parse_ignores_fields_after_tenth. reflexivity.
Defined.

(** C10. Fields are counted by position: the loop counts one field more
    than the line has commas, empty fields included, so every line with at
    least 3 commas parses with success.  ",,," succeeds with address 0 and
    with typeID, commandType, the six data slots and errorFlags all 0, but
    not with the all-zero message the specification expects: [sliceID] is
    never assigned by [parseSerialInput], so it stays what the caller's
    variable held, 7 for a variable that held 7. *)
Theorem parse_counts_fields_by_position :
  (forall (input : WString.t) (ta : Z) (m : CRUMBSMessage),
      Vars.fieldCount (parse_loop input ta m) = commas input + 1)
  /\ (forall (input : WString.t) (ta : Z) (m : CRUMBSMessage) (b : Board),
         3 <= commas input ->
         succeeded (fst (parseSerialInput input ta m b)) = true)
  /\ (forall (ta : Z) (m : CRUMBSMessage) (b : Board),
         fst (parseSerialInput (WString.lit ",,,") ta m b)
         = (true, 0, mkMessage (sliceID m) 0 0 Data6.zeros 0))
  /\ (fst (parseSerialInput (WString.lit ",,,") 0 stale_message quiet_board)
      = (true, 0, mkMessage 7 0 0 Data6.zeros 0)
      /\ snd (fst (parseSerialInput (WString.lit ",,,") 0 stale_message quiet_board))
         <> mkMessage 0 0 0 Data6.zeros 0).
Proof.
  split; [| split; [| split; [| vm_compute; split; [reflexivity | discriminate]]]].
  - intros input ta m. rewrite parse_loop_fields.
    fold (parsed_vars input ta m). cbn [Vars.set_lastComma Vars.fieldCount].
    now rewrite parsed_vars_count, field_count_commas.
  - intros input ta m b Hc. rewrite parse_value. cbn [succeeded fst].
    apply Z.leb_le. rewrite field_count_commas. lia.
  - intros ta m b. rewrite parse_value. vm_compute. reflexivity.
Qed.

Lemma parse_counts_fields_by_position_witness :
  succeeded (fst (parseSerialInput (WString.lit ",x,,, ,") 5 stale_message quiet_board)) = true.
Proof.
  apply (proj1 (proj2 parse_counts_fields_by_position)).
  vm_compute. discriminate.
Defined.

(** ** The request/response exchange *)

Lemma store_middle (pre post : list Z) (x v : Z) :
  store (pre ++ x :: post) (List.length pre) v = pre ++ v :: post.
Proof.
  induction pre as [| y pre IH]; simpl; [reflexivity | now rewrite IH].
Qed.

(** The receiving loop takes the waiting bytes, one read each, until the
    buffer is full or nothing is waiting. *)
Lemma receive_run (n : nat) :
  forall (pre post : list Z) (b : Board),
    List.length post = n ->
    Z.of_nat (List.length pre) + Z.of_nat n = CRUMBS_MESSAGE_SIZE ->
    let k := Nat.min n (List.length (wire_rx b)) in
    receive n (pre ++ post) (Z.of_nat (List.length pre)) b
    = ((pre ++ map CInt.to_uint8 (firstn k (wire_rx b)) ++ skipn k post,
        Z.of_nat (List.length pre) + Z.of_nat k),
       mkBoard (serial_rx b) (skipn k (wire_rx b)) (slave b)
               (trace b ++ map WireRead (firstn k (wire_rx b)))).
Proof.
  induction n as [| n IH]; intros pre post b Hpost Hsum k.
  - destruct b; subst k; simpl. now rewrite app_nil_r, Z.add_0_r.
  - destruct post as [| x post]; [discriminate |].
    destruct b as [srx wrx sl tr]; cbn [wire_rx serial_rx slave trace] in *.
    destruct wrx as [| y wrx].
    + subst k; simpl. now rewrite app_nil_r, Z.add_0_r.
    + unfold k. cbn [receive bind Wire.available Wire.read wire_rx serial_rx slave trace
                       andb List.length Nat.min firstn skipn map].
      destruct (Z.ltb_spec (Z.of_nat (List.length pre)) CRUMBS_MESSAGE_SIZE); [| lia].
      unfold bind, Wire.read; cbn [wire_rx serial_rx slave trace].
      rewrite Nat2Z.id, store_middle.
      replace (pre ++ CInt.to_uint8 y :: post)
        with ((pre ++ [CInt.to_uint8 y]) ++ post) by (now rewrite <- app_assoc).
      replace (Z.of_nat (List.length pre) + 1)
        with (Z.of_nat (List.length (pre ++ [CInt.to_uint8 y])))
        by (rewrite length_app; simpl; lia).
      rewrite IH;
        [| simpl in Hpost; lia | rewrite length_app; simpl; lia ].
      cbn [wire_rx serial_rx slave trace].
      rewrite length_app, <- !app_assoc. cbn [app List.length].
      replace (Z.of_nat (List.length pre + 1) + Z.of_nat (Nat.min n (List.length wrx)))
        with (Z.of_nat (List.length pre) + Z.of_nat (S (Nat.min n (List.length wrx))))
        by lia.
      reflexivity.
Qed.

Lemma uninitialised_length (n : nat) (junk : nat -> Z) :
  List.length (uninitialised n junk) = n.
Proof. unfold uninitialised. now rewrite length_map, length_seq. Qed.

Lemma report_response_run (d : option CRUMBSMessage) (b : Board) :
  report_response d b
  = (tt, mkBoard (serial_rx b) (wire_rx b) (slave b) (trace b ++ response_report d)).
Proof.
  destruct d as [response |]; [| reflexivity].
  unfold report_response, response_report, bind, Serial.print, Serial.println, emit.
  cbn -[app]. rewrite <- !app_assoc. reflexivity.
Qed.

(** One call of the request branch, start to end. *)
Lemma request_response_run (junk : Indeterminate) (address : Z) (b : Board) :
  let d := Codec.decodeMessage (filled_buffer junk b address)
                               (Z.of_nat (collected b address)) in
  request_response junk address b
  = (d, mkBoard (serial_rx b)
                (skipn (collected b address) (arrived b address))
                (slave b)
                (trace b ++ exchange b address
                 ++ received_banner (Z.of_nat (collected b address))
                 ++ response_report d)).
Proof.
  intros d. unfold request_response.
  unfold bind at 1. unfold Wire.requestFrom.
  unfold bind at 1. unfold delay, emit at 1.
  cbn [serial_rx wire_rx slave trace].
  unfold bind at 1.
  pose proof (receive_run (Z.to_nat CRUMBS_MESSAGE_SIZE) []
                (uninitialised (Z.to_nat CRUMBS_MESSAGE_SIZE) (responseBuffer0 junk))
                (mkBoard (serial_rx b) (slave b address CRUMBS_MESSAGE_SIZE) (slave b)
                         ((trace b ++ [WireRequestFrom address CRUMBS_MESSAGE_SIZE])
                          ++ [Delay 50]))
                (uninitialised_length _ _) eq_refl) as Hrun.
  cbn [app List.length Z.of_nat wire_rx serial_rx slave trace] in Hrun.
  rewrite Hrun. clear Hrun.
  fold (arrived b address). fold (collected b address).
  fold (filled_buffer junk b address).
  rewrite Z.add_0_l. fold d.
  unfold bind, Serial.print, Serial.println, emit.
  cbn [serial_rx wire_rx slave trace].
  rewrite report_response_run. cbn [serial_rx wire_rx slave trace ret].
  unfold exchange, received_banner.
  rewrite <- !app_assoc. reflexivity.
Qed.

Lemma firstn_min_length {A : Type} (n : nat) (l : list A) :
  firstn (Nat.min n (List.length l)) l = firstn n l.
Proof.
  destruct (Nat.le_gt_cases n (List.length l)).
  - now rewrite Nat.min_l.
  - rewrite Nat.min_r, firstn_all by lia. symmetry. apply firstn_all2. lia.
Qed.

Lemma bus_events_app (t u : list event) :
  bus_events (t ++ u) = bus_events t ++ bus_events u.
Proof. apply filter_app. Qed.

Lemma bus_events_reads (l : list Z) : bus_events (map WireRead l) = map WireRead l.
Proof. induction l as [| x l IH]; simpl; [reflexivity | now f_equal]. Qed.

Lemma bus_events_report (d : option CRUMBSMessage) : bus_events (response_report d) = [].
Proof. destruct d; reflexivity. Qed.

Lemma bus_events_exchange (b : Board) (address : Z) :
  bus_events (exchange b address) = exchange b address.
Proof.
  unfold exchange. rewrite bus_events_app, bus_events_reads. reflexivity.
Qed.

Lemma substring_to_end (input : WString.t) (from : nat) :
  WString.substring input (Z.of_nat from) (WString.length input) = skipn from input.
Proof.
  unfold WString.substring, WString.length.
  destruct (Z.ltb_spec (Z.of_nat (List.length input)) (Z.of_nat from)) as [Hpast | Hin].
  - rewrite Z.leb_refl. symmetry. apply skipn_all2. lia.
  - destruct (Z.leb_spec (Z.of_nat (List.length input)) (Z.of_nat from)).
    + symmetry. apply skipn_all2. lia.
    + rewrite Z.ltb_irrefl, Nat2Z.id.
      apply firstn_all2. rewrite length_skipn. lia.
Qed.

(** A console line that starts with [request=] is handled by the request
    branch alone. *)
Lemma handleSerialInput_request (junk : Indeterminate) (b : Board) :
  serial_rx b <> [] ->
  WString.startsWith (console_line b) (WString.lit "request=") = true ->
  let address := request_address (WString.trim (skipn 8 (console_line b))) in
  handleSerialInput junk b
  = (tt, snd (request_response junk address
                (mkBoard (snd (Serial.split_at "010"%char (serial_rx b)))
                         (wire_rx b) (slave b)
                         (trace b
                          ++ [SerialPrint (PText "Master: Received input from serial: ");
                              SerialPrintln (PString (console_line b));
                              SerialPrint (PText "Master: Requesting data from address: 0x");
                              SerialPrintln (PHex address)])))).
Proof.
  intros Hwait Hreq. cbv zeta.
  unfold handleSerialInput.
  unfold bind at 1. unfold Serial.available.
  destruct (serial_rx b) as [| c0 rx0] eqn:Hrx; [congruence |].
  unfold bind at 1. unfold Serial.readStringUntil. rewrite Hrx.
  unfold console_line in *. rewrite Hrx in *.
  destruct (Serial.split_at "010" (c0 :: rx0)) as [line rest] eqn:Hsplit.
  cbn [fst snd] in *.
  unfold bind at 1. unfold Serial.print, emit at 1. cbn [serial_rx wire_rx slave trace].
  unfold bind at 1. unfold Serial.println, emit at 1. cbn [serial_rx wire_rx slave trace].
  rewrite Hreq.
  change (WString.length (WString.lit "request=")) with (Z.of_nat 8).
  rewrite substring_to_end.
  unfold bind at 1. unfold Serial.print, emit at 1. cbn [serial_rx wire_rx slave trace].
  unfold bind at 1. unfold Serial.println, emit at 1. cbn [serial_rx wire_rx slave trace].
  rewrite <- !app_assoc. cbn [app].
  unfold bind at 1.
  match goal with
  | |- context [request_response ?j ?a ?bb] => destruct (request_response j a bb)
  end.
  reflexivity.
Qed.

(** ** Addresses in a [request=] line *)

Lemma read_xdigits_numeral (ds tail : list ascii) (acc : Z) :
  forallb hex_digit ds = true -> stops hex_digit tail = true ->
  LibC.read_xdigits (ds ++ tail) acc
  = fold_left (fun a d => a * 16 + d)
      (map (fun c => match LibC.xdigit_value c with Some d => d | None => 0 end) ds) acc.
Proof.
  revert acc. induction ds as [| c ds IH]; intros acc Hds Htail.
  - destruct tail as [| t tail]; [reflexivity |].
    simpl in *. unfold hex_digit in Htail.
    now destruct (LibC.xdigit_value t).
  - simpl in Hds. apply andb_true_iff in Hds. destruct Hds as [Hc Hds].
    unfold hex_digit in Hc. simpl.
    destruct (LibC.xdigit_value c); [now apply IH | discriminate].
Qed.

Lemma read_digits_numeral (ds tail : list ascii) (acc n : Z) :
  forallb LibC.isdigit ds = true -> stops LibC.isdigit tail = true ->
  LibC.read_digits (ds ++ tail) acc n
  = (fold_left (fun a d => a * 10 + d) (map LibC.digit_value ds) acc,
     n + Z.of_nat (List.length ds), tail).
Proof.
  revert acc n. induction ds as [| c ds IH]; intros acc n Hds Htail.
  - rewrite Z.add_0_r. destruct tail as [| t tail]; [reflexivity |].
    simpl in *. now destruct (LibC.isdigit t).
  - simpl in Hds. apply andb_true_iff in Hds. destruct Hds as [Hc Hds].
    cbn [app LibC.read_digits map fold_left List.length]. rewrite Hc, IH by assumption.
    replace (n + 1 + Z.of_nat (List.length ds)) with (n + Z.of_nat (S (List.length ds)))
      by lia.
    reflexivity.
Qed.

Lemma digit_starts_number (c : ascii) (s : list ascii) :
  LibC.isdigit c = true ->
  LibC.take_sign (LibC.skip_space (c :: s)) = (false, c :: s).
Proof.
  intros Hc.
  destruct c as [[] [] [] [] [] [] [] []]; try reflexivity; discriminate.
Qed.

Lemma to_uint8_wrap_long (x : Z) : CInt.to_uint8 (CInt.wrap_long x) = CInt.to_uint8 x.
Proof.
  unfold CInt.to_uint8, CInt.wrap_long.
  Z.to_euclidean_division_equations. lia.
Qed.

(** A [0x] or [0X] address is read in base 16. *)
Lemma request_address_hex (x : ascii) (ds tail : list ascii) :
  x = "x"%char \/ x = "X"%char ->
  forallb hex_digit ds = true -> stops hex_digit tail = true ->
  hex_value ds <= CInt.LONG_MAX ->
  request_address ("0"%char :: x :: ds ++ tail) = hex_value ds mod 256.
Proof.
  intros Hx Hds Htail Hmax.
  assert (Hread : LibC.read_xdigits (ds ++ tail) 0 = hex_value ds)
    by (now apply read_xdigits_numeral).
  assert (Hval : request_address ("0"%char :: x :: ds ++ tail)
                 = CInt.to_uint8
                     (if LibC.read_xdigits (ds ++ tail) 0 <=? CInt.LONG_MAX
                      then LibC.read_xdigits (ds ++ tail) 0 else CInt.LONG_MAX))
    by (destruct Hx as [-> | ->]; reflexivity).
  rewrite Hval, Hread.
  destruct (Z.leb_spec (hex_value ds) CInt.LONG_MAX); [reflexivity | lia].
Qed.

Lemma digit_value_range (c : ascii) :
  LibC.isdigit c = true -> 0 <= LibC.digit_value c <= 9.
Proof.
  unfold LibC.isdigit, LibC.digit_value. intros H.
  apply andb_true_iff in H. destruct H as [Hlo Hhi].
  apply Z.leb_le in Hlo. apply Z.leb_le in Hhi. lia.
Qed.

Lemma dec_value_nonneg (ds : list ascii) :
  forallb LibC.isdigit ds = true -> 0 <= dec_value ds.
Proof.
  unfold dec_value, numeral.
  assert (H : forall l acc, forallb LibC.isdigit l = true -> 0 <= acc ->
                0 <= fold_left (fun a d => a * 10 + d) (map LibC.digit_value l) acc).
  { induction l as [| c l IH]; intros acc Hl Hacc; [exact Hacc |].
    simpl in Hl. apply andb_true_iff in Hl. destruct Hl as [Hc Hl].
    cbn [map fold_left]. apply IH; [assumption |].
    pose proof (digit_value_range c Hc). lia. }
  intros Hds. now apply H.
Qed.

(** Within the range of [long] nothing is lost. *)
Lemma wrap_long_small (x : Z) :
  CInt.LONG_MIN <= x <= CInt.LONG_MAX -> CInt.wrap_long x = x.
Proof.
  unfold CInt.LONG_MIN, CInt.LONG_MAX, CInt.wrap_long. intros H.
  rewrite Z.mod_small by lia. lia.
Qed.

(** Any other address is read in base 10. *)
Lemma request_address_dec (ds tail : list ascii) :
  ds <> [] ->
  forallb LibC.isdigit ds = true -> stops LibC.isdigit tail = true ->
  WString.startsWith (ds ++ tail) (WString.lit "0x") = false ->
  WString.startsWith (ds ++ tail) (WString.lit "0X") = false ->
  dec_value ds <= CInt.LONG_MAX ->
  request_address (ds ++ tail) = dec_value ds mod 256.
Proof.
  intros Hne Hds Htail Hx HX Hmax.
  pose proof (dec_value_nonneg ds Hds) as Hpos.
  unfold request_address. rewrite Hx, HX. cbn [orb].
  unfold WString.toInt, LibC.atol.
  destruct ds as [| c ds]; [congruence |].
  assert (Hc : LibC.isdigit c = true)
    by (simpl in Hds; now apply andb_true_iff in Hds).
  change ((c :: ds) ++ tail) with (c :: ds ++ tail).
  rewrite (digit_starts_number c (ds ++ tail) Hc).
  change (c :: ds ++ tail) with ((c :: ds) ++ tail).
  rewrite read_digits_numeral by assumption.
  fold (numeral 10 (map LibC.digit_value (c :: ds))). fold (dec_value (c :: ds)).
  rewrite wrap_long_small by (unfold CInt.LONG_MIN; lia).
  reflexivity.
Qed.

(** ** Main results on the exchange *)

(** C3. A decode with a length below 28 fails, whatever the buffer holds;
    and when the peripheral delivers fewer than 28 bytes, the request
    branch gets no message: after the read request, the delay and one read
    per delivered byte, it prints the count and the failure, and nothing
    of a message. *)
Theorem short_response_fails :
  (forall (buffer : list Z) (n : Z), n < 28 -> Codec.decodeMessage buffer n = None)
  /\ (forall (junk : Indeterminate) (address : Z) (b : Board),
         (List.length (slave b address 28) < 28)%nat ->
         fst (request_response junk address b) = None
         /\ trace (snd (request_response junk address b))
            = trace b
              ++ [WireRequestFrom address 28; Delay 50]
              ++ map WireRead (slave b address 28)
              ++ received_banner (Z.of_nat (List.length (slave b address 28)))
              ++ [SerialPrintln (PText "Master: Failed to decode response.")]).
Proof.
  split; [exact decodeMessage_short |].
  intros junk address b Hshort.
  rewrite request_response_run. cbn [fst snd trace].
  assert (Hk : collected b address = List.length (slave b address 28))
    by (unfold collected, arrived; change (Z.to_nat CRUMBS_MESSAGE_SIZE) with 28%nat;
        change CRUMBS_MESSAGE_SIZE with 28; lia).
  rewrite decodeMessage_short
    by (rewrite Hk; change CRUMBS_MESSAGE_SIZE with 28; lia).
  split; [reflexivity |].
  unfold exchange, arrived. rewrite Hk.
  change CRUMBS_MESSAGE_SIZE with 28.
  rewrite firstn_all, <- !app_assoc. reflexivity.
Qed.

Lemma short_response_fails_witness :
  Codec.decodeMessage (Codec.encodeMessage stale_message) 27 = None
  /\ fst (request_response stale_locals 8 (console_board "" short_peripheral)) = None.
Proof.
  split.
  - apply (proj1 short_response_fails). lia.
  - apply (proj2 short_response_fails stale_locals 8 (console_board "" short_peripheral)).
    simpl. lia.
Defined.

(** C5. One call of the request branch does, on the bus, exactly this: one
    read request for 28 bytes to the address, the 50 ms delay, then one
    read per byte taken, where the bytes taken are the first 28 of those
    that arrived, or all of them when fewer arrived; the reading ends with
    28 bytes taken or with nothing left waiting.  The decode is given the
    buffer holding those bytes and their exact count. *)
Theorem request_response_single_read
  (junk : Indeterminate) (address : Z) (b : Board) :
  let r := request_response junk address b in
  let rx := slave b address 28 in
  let k := Nat.min 28 (List.length rx) in
  bus_events (trace (snd r))
  = bus_events (trace b)
    ++ [WireRequestFrom address 28; Delay 50] ++ map WireRead (firstn k rx)
  /\ wire_rx (snd r) = skipn k rx
  /\ (k = 28%nat \/ wire_rx (snd r) = [])
  /\ fst r = Codec.decodeMessage
               (map CInt.to_uint8 (firstn k rx)
                ++ skipn k (uninitialised 28 (responseBuffer0 junk)))
               (Z.of_nat k)
  /\ trace (snd r)
     = trace b
       ++ ([WireRequestFrom address 28; Delay 50] ++ map WireRead (firstn k rx))
       ++ received_banner (Z.of_nat k)
       ++ response_report (fst r).
Proof.
  intros r rx k. unfold r. rewrite request_response_run.
  cbn [fst snd trace wire_rx].
  repeat apply conj; try reflexivity.
  - rewrite !bus_events_app, bus_events_exchange, bus_events_report, app_nil_r.
    reflexivity.
  - unfold collected, arrived.
    change (Z.to_nat CRUMBS_MESSAGE_SIZE) with 28%nat.
    change CRUMBS_MESSAGE_SIZE with 28. fold rx. fold k.
    destruct (Nat.le_gt_cases 28 (List.length rx)); [left | right].
    + unfold k. lia.
    + apply skipn_all2. unfold k. lia.
Qed.

(** C6. A console line that starts with [request=] is served by the
    request branch only: on the bus there is the read exchange with the
    address given in the line and no message is written, and the console
    shows the echo of the line, the address, the count of bytes and the
    report of the decode, nothing of a parse.  The address is
    read in base 16 after [0x] or [0X] and in base 10 otherwise, a numeral
    within the range of [long] giving its value cast to 8 bits;
    "request=0x08" and "request=8" both ask address 8. *)
Theorem request_line_resolves_address :
  (forall (junk : Indeterminate) (b : Board),
      serial_rx b <> [] ->
      WString.startsWith (console_line b) (WString.lit "request=") = true ->
      let address := request_address (WString.trim (skipn 8 (console_line b))) in
      bus_events (trace (snd (handleSerialInput junk b)))
      = bus_events (trace b)
        ++ [WireRequestFrom address 28; Delay 50]
        ++ map WireRead (firstn 28 (slave b address 28))
      /\ exists (n : Z) (decoded : option CRUMBSMessage),
          trace (snd (handleSerialInput junk b))
          = trace b
            ++ [SerialPrint (PText "Master: Received input from serial: ");
                SerialPrintln (PString (console_line b));
                SerialPrint (PText "Master: Requesting data from address: 0x");
                SerialPrintln (PHex address)]
            ++ ([WireRequestFrom address 28; Delay 50]
                ++ map WireRead (firstn 28 (slave b address 28)))
            ++ received_banner n
            ++ response_report decoded)
  /\ (forall (x : ascii) (ds tail : list ascii),
         x = "x"%char \/ x = "X"%char ->
         forallb hex_digit ds = true -> stops hex_digit tail = true ->
         hex_value ds <= CInt.LONG_MAX ->
         request_address ("0"%char :: x :: ds ++ tail) = hex_value ds mod 256)
  /\ (forall (ds tail : list ascii),
         ds <> [] ->
         forallb LibC.isdigit ds = true -> stops LibC.isdigit tail = true ->
         WString.startsWith (ds ++ tail) (WString.lit "0x") = false ->
         WString.startsWith (ds ++ tail) (WString.lit "0X") = false ->
         dec_value ds <= CInt.LONG_MAX ->
         request_address (ds ++ tail) = dec_value ds mod 256)
  /\ (forall (junk : Indeterminate) (peripheral : Z -> Z -> list Z),
         bus_events (trace (snd (handleSerialInput junk
                                   (console_board "request=0x08" peripheral))))
         = [WireRequestFrom 8 28; Delay 50] ++ map WireRead (firstn 28 (peripheral 8 28))
         /\ bus_events (trace (snd (handleSerialInput junk
                                      (console_board "request=8" peripheral))))
            = [WireRequestFrom 8 28; Delay 50] ++ map WireRead (firstn 28 (peripheral 8 28))).
Proof.
  assert (Hexchange : forall (b b' : Board) (address : Z),
             slave b' = slave b ->
             exchange b' address
             = [WireRequestFrom address 28; Delay 50]
               ++ map WireRead (firstn 28 (slave b address 28))).
  { intros b b' address Hsl.
    unfold exchange, collected, arrived. rewrite Hsl.
    change (Z.to_nat CRUMBS_MESSAGE_SIZE) with 28%nat.
    change CRUMBS_MESSAGE_SIZE with 28.
    now rewrite firstn_min_length. }
  assert (Hline : forall (junk : Indeterminate) (b : Board),
             serial_rx b <> [] ->
             WString.startsWith (console_line b) (WString.lit "request=") = true ->
             bus_events (trace (snd (handleSerialInput junk b)))
             = bus_events (trace b)
               ++ [WireRequestFrom
                     (request_address (WString.trim (skipn 8 (console_line b)))) 28;
                   Delay 50]
               ++ map WireRead
                    (firstn 28 (slave b (request_address
                                           (WString.trim (skipn 8 (console_line b)))) 28))).
  { intros junk b Hwait Hreq.
    rewrite (handleSerialInput_request junk b Hwait Hreq).
    cbv zeta. rewrite request_response_run. cbn [fst snd trace].
    rewrite !bus_events_app, bus_events_exchange, bus_events_report, app_nil_r.
    rewrite (Hexchange b) by reflexivity.
    cbn [bus_events filter is_print negb app]. rewrite app_nil_r. reflexivity. }
  split; [| split; [exact request_address_hex |]; split; [exact request_address_dec |]].
  - intros junk b Hwait Hreq address. split; [now apply Hline |].
    rewrite (handleSerialInput_request junk b Hwait Hreq).
    cbv zeta. fold address. rewrite request_response_run. cbn [fst snd trace].
    rewrite (Hexchange b) by reflexivity.
    eexists. eexists. rewrite <- !app_assoc. reflexivity.
  - intros junk peripheral. split.
    + apply (Hline junk (console_board "request=0x08" peripheral));
        [discriminate | reflexivity].
    + apply (Hline junk (console_board "request=8" peripheral));
        [discriminate | reflexivity].
Qed.

Lemma request_line_resolves_address_witness :
  bus_events (trace (snd (handleSerialInput stale_locals
                            (console_board "  request= 0X1f " short_peripheral))))
  = [WireRequestFrom 31 28; Delay 50;
     WireRead 17; WireRead 34; WireRead 51; WireRead 68; WireRead 85].
Proof.
  apply (proj1 request_line_resolves_address stale_locals
               (console_board "  request= 0X1f " short_peripheral)).
  - discriminate.
  - reflexivity.
Defined.

(** ** The command branch of [handleSerialInput] *)

Lemma parse_report_run (st : Vars.t) (b : Board) :
  parse_report st b
  = ((4 <=? Vars.fieldCount st, Vars.targetAddress st, Vars.message st),
     mkBoard (serial_rx b) (wire_rx b) (slave b) (trace b ++ parse_console st)).
Proof.
  unfold parse_report, parse_console.
  destruct (Z.ltb_spec (Vars.fieldCount st) 4);
    destruct (Z.leb_spec 4 (Vars.fieldCount st)); try lia.
  - reflexivity.
  - unfold bind, Serial.print, Serial.println, emit.
    cbn -[app]. rewrite <- !app_assoc. reflexivity.
Qed.

(** A console line that does not start with [request=] is parsed, and sent
    when the parse succeeds. *)
Lemma handleSerialInput_command (junk : Indeterminate) (b : Board) :
  serial_rx b <> [] ->
  WString.startsWith (console_line b) (WString.lit "request=") = false ->
  handleSerialInput junk b
  = (tt, mkBoard (snd (Serial.split_at "010"%char (serial_rx b)))
                 (wire_rx b) (slave b)
                 (trace b
                  ++ line_echo (console_line b)
                  ++ parse_console (parse_loop (console_line b)
                                      (targetAddress0 junk) (message0 junk))
                  ++ command_outcome (parse_loop (console_line b)
                                        (targetAddress0 junk) (message0 junk)))).
Proof.
  intros Hwait Hcmd.
  unfold handleSerialInput.
  unfold bind at 1. unfold Serial.available.
  destruct (serial_rx b) as [| c0 rx0] eqn:Hrx; [congruence |].
  unfold bind at 1. unfold Serial.readStringUntil. rewrite Hrx.
  unfold console_line in *. rewrite Hrx in *.
  destruct (Serial.split_at "010" (c0 :: rx0)) as [line rest] eqn:Hsplit.
  cbn [fst snd] in *.
  unfold bind at 1. unfold Serial.print, emit at 1. cbn [serial_rx wire_rx slave trace].
  unfold bind at 1. unfold Serial.println, emit at 1. cbn [serial_rx wire_rx slave trace].
  rewrite Hcmd.
  unfold bind at 1. unfold parseSerialInput. rewrite parse_report_run.
  cbn [serial_rx wire_rx slave trace].
  unfold command_outcome, line_echo.
  destruct (4 <=? Vars.fieldCount _);
    unfold sendMessage, bind, Serial.println, emit; cbn [serial_rx wire_rx slave trace];
    rewrite <- !app_assoc; reflexivity.
Qed.

Lemma bus_events_parse_console (st : Vars.t) : bus_events (parse_console st) = [].
Proof.
  unfold parse_console. destruct (Vars.fieldCount st <? 4); reflexivity.
Qed.

Lemma bus_events_line_echo (input : WString.t) : bus_events (line_echo input) = [].
Proof. reflexivity. Qed.

Lemma parse_loop_count (input : WString.t) (ta : Z) (m : CRUMBSMessage) :
  Vars.fieldCount (parse_loop input ta m) = field_count input.
Proof.
  rewrite parse_loop_fields. fold (parsed_vars input ta m).
  cbn [Vars.set_lastComma Vars.fieldCount]. apply parsed_vars_count.
Qed.

Lemma parse_loop_value (input : WString.t) (ta : Z) (m : CRUMBSMessage) (b : Board) :
  fst (parseSerialInput input ta m b)
  = (4 <=? field_count input,
     Vars.targetAddress (parse_loop input ta m), Vars.message (parse_loop input ta m)).
Proof.
  unfold parseSerialInput. now rewrite parse_report_value, parse_loop_count.
Qed.

(** X1. A console line that does not start with [request=] and has at
    least 4 fields makes exactly one bus transaction: one write, to the
    address the parse returned, of the encoding of the message it returned.
    Nothing is requested or read, and the console ends with the line
    "Master: Message sent based on serial input.". *)
Theorem command_line_is_sent_once (junk : Indeterminate) (b : Board) :
  serial_rx b <> [] ->
  WString.startsWith (console_line b) (WString.lit "request=") = false ->
  4 <= field_count (console_line b) ->
  let r := fst (parseSerialInput (console_line b) (targetAddress0 junk) (message0 junk) b) in
  let b' := snd (handleSerialInput junk b) in
  bus_events (trace b')
  = bus_events (trace b) ++ [WireWrite (snd (fst r)) (Codec.encodeMessage (snd r))]
  /\ wire_rx b' = wire_rx b
  /\ exists shown : list event,
      trace b' = trace b ++ shown
                 ++ [WireWrite (snd (fst r)) (Codec.encodeMessage (snd r));
                     SerialPrintln (PText "Master: Message sent based on serial input.")]
      /\ bus_events shown = [].
Proof.
  intros Hwait Hcmd Hfields r b'. unfold r, b'.
  rewrite (handleSerialInput_command junk b Hwait Hcmd), parse_loop_value.
  cbn [fst snd trace wire_rx].
  unfold command_outcome. rewrite parse_loop_count.
  destruct (Z.leb_spec 4 (field_count (console_line b))); [| lia].
  split; [| split; [reflexivity |]].
  - rewrite !bus_events_app, bus_events_line_echo, bus_events_parse_console.
    reflexivity.
  - eexists (line_echo _ ++ parse_console _). split.
    + rewrite <- !app_assoc. reflexivity.
    + now rewrite bus_events_app, bus_events_line_echo, bus_events_parse_console.
Qed.

Lemma command_line_is_sent_once_witness :
  bus_events (trace (snd (handleSerialInput stale_locals
                            (console_board "264,300,-1,abc,-0" short_peripheral))))
  = [WireWrite 8 [7; 44; 255; 0; 0; 0; 0; 0; 0; 0; 128; 0; 0; 0; 0;
                  0; 0; 0; 0; 0; 0; 0; 0; 0; 0; 0; 0; 0]].
Proof.
  apply (command_line_is_sent_once stale_locals
           (console_board "264,300,-1,abc,-0" short_peripheral)).
  - discriminate.
  - reflexivity.
  - vm_compute. discriminate.
Defined.

(** X2. A console line that does not start with [request=] and has fewer
    than 4 fields (an empty or blank line among them) causes no bus
    activity at all: the call echoes the line, prints the two failure
    lines, and leaves the receive buffer as it was. *)
Theorem short_command_line_is_dropped (junk : Indeterminate) (b : Board) :
  serial_rx b <> [] ->
  WString.startsWith (console_line b) (WString.lit "request=") = false ->
  field_count (console_line b) < 4 ->
  let b' := snd (handleSerialInput junk b) in
  bus_events (trace b') = bus_events (trace b)
  /\ wire_rx b' = wire_rx b
  /\ trace b'
     = trace b
       ++ [SerialPrint (PText "Master: Received input from serial: ");
           SerialPrintln (PString (console_line b));
           SerialPrintln (PText "Master: Not enough fields in input.");
           SerialPrintln (PText "Master: Failed to parse serial input. Please check the format.")].
Proof.
  intros Hwait Hcmd Hfields b'. unfold b'.
  rewrite (handleSerialInput_command junk b Hwait Hcmd).
  cbn [fst snd trace wire_rx].
  unfold command_outcome, parse_console. rewrite parse_loop_count.
  destruct (Z.leb_spec 4 (field_count (console_line b))); [lia |].
  destruct (Z.ltb_spec (field_count (console_line b)) 4); [| lia].
  split; [| split; reflexivity].
  rewrite !bus_events_app. cbn. now rewrite app_nil_r.
Qed.

Lemma short_command_line_is_dropped_witness :
  trace (snd (handleSerialInput stale_locals (console_board "   " short_peripheral)))
  = [SerialPrint (PText "Master: Received input from serial: ");
     SerialPrintln (PString []);
     SerialPrintln (PText "Master: Not enough fields in input.");
     SerialPrintln (PText "Master: Failed to parse serial input. Please check the format.")].
Proof.
  apply (short_command_line_is_dropped stale_locals (console_board "   " short_peripheral)).
  - discriminate.
  - reflexivity.
  - reflexivity.
Defined.

(** ** One console line per call *)

Lemma split_at_newline (line rest : list ascii) :
  newline_free line = true ->
  Serial.split_at "010"%char (line ++ "010"%char :: rest) = (line, rest).
Proof.
  induction line as [| c line IH]; intros Hfree; [reflexivity |].
  simpl in Hfree. apply andb_true_iff in Hfree. destruct Hfree as [Hc Hfree].
  apply negb_true_iff in Hc.
  cbn [app Serial.split_at]. rewrite Hc, IH by assumption. reflexivity.
Qed.

Lemma split_at_no_newline (line : list ascii) :
  newline_free line = true -> Serial.split_at "010"%char line = (line, []).
Proof.
  induction line as [| c line IH]; intros Hfree; [reflexivity |].
  simpl in Hfree. apply andb_true_iff in Hfree. destruct Hfree as [Hc Hfree].
  apply negb_true_iff in Hc.
  cbn [Serial.split_at]. rewrite Hc, IH by assumption. reflexivity.
Qed.

(** Whatever the line holds, the call ends with the console, the receive
    buffer and the trace as one of the two branches leaves them. *)
Lemma handleSerialInput_board (junk : Indeterminate) (b : Board) :
  serial_rx b <> [] ->
  exists (rx : list Z) (done : list event),
    snd (handleSerialInput junk b)
    = mkBoard (snd (Serial.split_at "010"%char (serial_rx b))) rx (slave b)
              (trace b ++ done).
Proof.
  intros Hwait.
  destruct (WString.startsWith (console_line b) (WString.lit "request=")) eqn:Hreq.
  - rewrite (handleSerialInput_request junk b Hwait Hreq).
    cbv zeta. rewrite request_response_run. cbn [fst snd serial_rx wire_rx slave trace].
    eexists. eexists. rewrite <- !app_assoc. reflexivity.
  - rewrite (handleSerialInput_command junk b Hwait Hreq). cbn [snd].
    eexists. eexists. reflexivity.
Qed.

(** X3. A call takes one line off the console and no more: with nothing
    waiting the board is left as it is; otherwise the text up to the first
    newline is the line (used trimmed), the newline is dropped and what
    follows stays for the next call; with no newline at all the whole text
    is the line. *)
Theorem one_console_line_per_call (junk : Indeterminate) (b : Board) :
  (serial_rx b = [] -> handleSerialInput junk b = (tt, b))
  /\ (forall line rest : list ascii,
         newline_free line = true ->
         serial_rx b = line ++ "010"%char :: rest ->
         serial_rx (snd (handleSerialInput junk b)) = rest
         /\ console_line b = WString.trim line)
  /\ (serial_rx b <> [] -> newline_free (serial_rx b) = true ->
      serial_rx (snd (handleSerialInput junk b)) = []
      /\ console_line b = WString.trim (serial_rx b)).
Proof.
  split; [| split].
  - intros Hempty. unfold handleSerialInput, bind, Serial.available.
    now rewrite Hempty.
  - intros line rest Hfree Hrx.
    assert (Hwait : serial_rx b <> []) by (rewrite Hrx; now destruct line).
    destruct (handleSerialInput_board junk b Hwait) as (rx & done & ->).
    unfold console_line. rewrite Hrx, split_at_newline by assumption.
    split; reflexivity.
  - intros Hwait Hfree.
    destruct (handleSerialInput_board junk b Hwait) as (rx & done & ->).
    unfold console_line. rewrite split_at_no_newline by assumption.
    split; reflexivity.
Qed.

Lemma one_console_line_per_call_witness :
  serial_rx (snd (handleSerialInput stale_locals
                    (console_board "8,1,1,75.0
request=8
" short_peripheral)))
  = WString.lit "request=8
"
  /\ console_line (console_board "8,1,1,75.0
request=8
" short_peripheral) = WString.lit "8,1,1,75.0".
Proof.
  apply (proj1 (proj2 (one_console_line_per_call stale_locals
                         (console_board "8,1,1,75.0
request=8
" short_peripheral)))
               (WString.lit "8,1,1,75.0") (WString.lit "request=8
")).
  - reflexivity.
  - reflexivity.
Defined.

(** X4. One call of [handleSerialInput] makes at most one transaction on
    the bus: nothing, or one write (of 28 bytes), or one read request for 28
    bytes followed by the delay and by at most 28 reads; never a write and
    a request in the same call. *)
Theorem at_most_one_bus_transaction (junk : Indeterminate) (b : Board) :
  exists bus : list event,
    bus_events (trace (snd (handleSerialInput junk b))) = bus_events (trace b) ++ bus
    /\ (bus = []
        \/ (exists (address : Z) (bytes : list Z),
               bus = [WireWrite address bytes] /\ List.length bytes = 28%nat)
        \/ (exists (address : Z) (taken : list Z),
               bus = WireRequestFrom address 28 :: Delay 50 :: map WireRead taken
               /\ (List.length taken <= 28)%nat)).
Proof.
  destruct (serial_rx b) as [| c0 rx0] eqn:Hrx.
  - exists []. split; [| now left].
    unfold handleSerialInput, bind, Serial.available. rewrite Hrx.
    cbn [snd ret]. now rewrite app_nil_r.
  - assert (Hwait : serial_rx b <> []) by (rewrite Hrx; discriminate).
    destruct (WString.startsWith (console_line b) (WString.lit "request=")) eqn:Hreq.
    + rewrite (handleSerialInput_request junk b Hwait Hreq).
      cbv zeta. rewrite request_response_run. cbn [fst snd trace].
      eexists. split.
      * rewrite !bus_events_app, bus_events_exchange, bus_events_report, app_nil_r.
        cbn [bus_events filter is_print negb app]. rewrite app_nil_r. reflexivity.
      * right. right. eexists. eexists. split; [reflexivity |].
        rewrite length_firstn. unfold collected.
        change (Z.to_nat CRUMBS_MESSAGE_SIZE) with 28%nat. lia.
    + rewrite (handleSerialInput_command junk b Hwait Hreq). cbn [snd trace].
      rewrite !bus_events_app, bus_events_line_echo, bus_events_parse_console.
      unfold command_outcome.
      destruct (4 <=? Vars.fieldCount _).
      * eexists. split; [reflexivity |].
        right. left. eexists. eexists. split; reflexivity.
      * exists []. split; [reflexivity | now left].
Qed.

(** ** Blanks around a line *)

Lemma skip_space_idem (s : list ascii) :
  LibC.skip_space (LibC.skip_space s) = LibC.skip_space s.
Proof.
  induction s as [| c s IH]; [reflexivity |].
  simpl. destruct (LibC.isspace c) eqn:Hc; [exact IH |].
  simpl. now rewrite Hc.
Qed.

Lemma skip_space_length (s : list ascii) :
  (List.length (LibC.skip_space s) <= List.length s)%nat.
Proof.
  induction s as [| c s IH]; simpl; [lia |].
  destruct (LibC.isspace c); simpl; lia.
Qed.

Lemma skip_space_fixed (c : ascii) (s : list ascii) :
  LibC.skip_space (c :: s) = c :: s -> LibC.isspace c = false.
Proof.
  simpl. destruct (LibC.isspace c); [| reflexivity].
  intros H. pose proof (skip_space_length s) as Hl. rewrite H in Hl. simpl in Hl. lia.
Qed.

Lemma skip_space_keeps_last (x : list ascii) (c : ascii) :
  LibC.isspace c = false ->
  exists w : list ascii, LibC.skip_space (x ++ [c]) = w ++ [c].
Proof.
  intros Hc. induction x as [| a x IH].
  - exists []. simpl. now rewrite Hc.
  - simpl. destruct (LibC.isspace a); [exact IH |].
    now exists (a :: x).
Qed.

Lemma trim_trimmed (s : list ascii) : trimmed (WString.trim s).
Proof.
  unfold trimmed, WString.trim.
  rewrite rev_involutive, skip_space_idem. split; [| reflexivity].
  pose proof (skip_space_idem s) as Hu.
  destruct (LibC.skip_space s) as [| c u]; [reflexivity |].
  apply skip_space_fixed in Hu.
  cbn [rev].
  destruct (skip_space_keeps_last (rev u) c Hu) as [w ->].
  rewrite rev_app_distr. simpl. now rewrite Hu.
Qed.

Lemma trim_of_trimmed (s : list ascii) : trimmed s -> WString.trim s = s.
Proof.
  intros [Hl Hr]. unfold WString.trim. rewrite Hl, Hr. apply rev_involutive.
Qed.

Lemma trim_idem (s : list ascii) : WString.trim (WString.trim s) = WString.trim s.
Proof. apply trim_of_trimmed, trim_trimmed. Qed.

Lemma skip_space_newline_free (s : list ascii) :
  newline_free s = true -> newline_free (LibC.skip_space s) = true.
Proof.
  induction s as [| c s IH]; [reflexivity |].
  intros H. simpl. destruct (LibC.isspace c); [| exact H].
  simpl in H. apply andb_true_iff in H. now apply IH.
Qed.

Lemma rev_newline_free (s : list ascii) :
  newline_free s = true -> newline_free (rev s) = true.
Proof.
  unfold newline_free. rewrite !forallb_forall.
  intros H c Hc. apply H. now apply in_rev.
Qed.

Lemma trim_newline_free (s : list ascii) :
  newline_free s = true -> newline_free (WString.trim s) = true.
Proof.
  intros H. unfold WString.trim.
  now apply rev_newline_free, skip_space_newline_free, rev_newline_free,
    skip_space_newline_free.
Qed.

(** The call sees the console only through its first line, trimmed, and
    what follows that line. *)
Lemma handleSerialInput_ext (junk : Indeterminate) (b b' : Board) :
  serial_rx b <> [] -> serial_rx b' <> [] ->
  console_line b = console_line b' ->
  snd (Serial.split_at "010"%char (serial_rx b))
  = snd (Serial.split_at "010"%char (serial_rx b')) ->
  wire_rx b = wire_rx b' -> slave b = slave b' -> trace b = trace b' ->
  handleSerialInput junk b = handleSerialInput junk b'.
Proof.
  intros Hw Hw' Hline Hrest Hrx Hsl Htr.
  destruct (WString.startsWith (console_line b) (WString.lit "request=")) eqn:Hreq.
  - rewrite (handleSerialInput_request junk b Hw Hreq).
    rewrite Hline in Hreq.
    rewrite (handleSerialInput_request junk b' Hw' Hreq).
    cbv zeta. now rewrite Hline, Hrest, Hrx, Hsl, Htr.
  - rewrite (handleSerialInput_command junk b Hw Hreq).
    rewrite Hline in Hreq.
    rewrite (handleSerialInput_command junk b' Hw' Hreq).
    now rewrite Hline, Hrest, Hrx, Hsl, Htr.
Qed.

(** X12. Blanks around a console line do not matter: a call on a line and
    a call on the same line trimmed (a carriage return before the newline,
    spaces before or after the text) end in the same board. *)
Theorem blanks_around_line_are_ignored
  (junk : Indeterminate) (b : Board) (line rest : list ascii) :
  newline_free line = true ->
  handleSerialInput junk (with_console b (line ++ "010"%char :: rest))
  = handleSerialInput junk (with_console b (WString.trim line ++ "010"%char :: rest)).
Proof.
  intros Hfree.
  apply handleSerialInput_ext; cbn [with_console serial_rx wire_rx slave trace];
    try reflexivity.
  - now destruct line.
  - now destruct (WString.trim line).
  - unfold console_line, with_console. cbn [serial_rx].
    rewrite !split_at_newline by (assumption || now apply trim_newline_free).
    cbn [fst]. symmetry. apply trim_idem.
  - now rewrite !split_at_newline by (assumption || now apply trim_newline_free).
Qed.

Lemma blanks_around_line_are_ignored_witness :
  handleSerialInput stale_locals
    (with_console (console_board "" short_peripheral)
                  (WString.lit "  request=0x08 " ++ ["013"%char] ++ "010"%char :: []))
  = handleSerialInput stale_locals
      (with_console (console_board "" short_peripheral)
                    (WString.trim (WString.lit "  request=0x08 " ++ ["013"%char])
                     ++ "010"%char :: [])).
Proof.
  apply (blanks_around_line_are_ignored stale_locals (console_board "" short_peripheral)
           (WString.lit "  request=0x08 " ++ ["013"%char]) []).
  reflexivity.
Defined.

(** ** Parsed floats are 32-bit patterns *)

Lemma digits2_pos_bound (m : positive) : Zpos m < 2 ^ Zpos (digits2_pos m).
Proof.
  induction m as [m IH | m IH |]; cbn [digits2_pos]; [| | reflexivity];
    rewrite Pos2Z.inj_succ, Z.pow_succ_r by lia; lia.
Qed.

Lemma quot2_pos (p : positive) :
  Z.quot (Zpos p~1) 2 = Zpos p /\ Z.quot (Zpos p~0) 2 = Zpos p.
Proof.
  split; symmetry.
  - apply Z.quot_unique with (r := 1); lia.
  - apply Z.quot_unique with (r := 0); lia.
Qed.

Lemma shr_1_quot (mrs : shr_record) : shr_m (shr_1 mrs) = Z.quot (shr_m mrs) 2.
Proof.
  destruct mrs as [m r s]. destruct m as [| [p | p |] | [p | p |]]; cbn [shr_1 shr_m];
    try reflexivity.
  - now rewrite (proj1 (quot2_pos p)).
  - now rewrite (proj2 (quot2_pos p)).
  - change (Z.neg p~1) with (- Z.pos p~1).
    rewrite Z.quot_opp_l by lia. now rewrite (proj1 (quot2_pos p)).
  - change (Z.neg p~0) with (- Z.pos p~0).
    rewrite Z.quot_opp_l by lia. now rewrite (proj2 (quot2_pos p)).
Qed.

Lemma iter_shr_quot (p : positive) :
  forall mrs : shr_record,
    shr_m (iter_pos shr_1 p mrs) = Z.quot (shr_m mrs) (2 ^ Zpos p).
Proof.
  induction p as [p IH | p IH |]; intros mrs; cbn [iter_pos].
  - assert (0 < 2 ^ Zpos p) by (apply Z.pow_pos_nonneg; lia).
    rewrite !IH, shr_1_quot, !Z.quot_quot by lia.
    f_equal. replace (Zpos p~1) with (1 + Zpos p + Zpos p) by lia.
    rewrite !Z.pow_add_r by lia. change (2 ^ 1) with 2. lia.
  - assert (0 < 2 ^ Zpos p) by (apply Z.pow_pos_nonneg; lia).
    rewrite !IH, !Z.quot_quot by lia.
    f_equal. replace (Zpos p~0) with (Zpos p + Zpos p) by lia.
    now rewrite Z.pow_add_r by lia.
  - now rewrite shr_1_quot.
Qed.

Lemma shr_fexp_canonical (z e : Z) (l : location) (mrs : shr_record) (e' : Z) (m : positive) :
  shr_fexp Float32.prec Float32.emax z e l = (mrs, e') ->
  shr_m mrs = Zpos m ->
  Zpos m < 16777216 /\ -149 <= e'.
Proof.
  unfold shr_fexp, shr, fexp, emin, Float32.prec, Float32.emax.
  intros Hshr Hm.
  destruct (Z.max (Zdigits2 z + e - 24) (3 - 128 - 24) - e) as [| n | n] eqn:Hn.
  - injection Hshr as <- <-.
    destruct l as [| []]; cbn [shr_record_of_loc shr_m] in Hm; subst z;
      cbn [Zdigits2] in Hn; pose proof (digits2_pos_bound m) as Hb;
      (split; [| lia]);
      (apply Z.lt_le_trans with (1 := Hb); apply Z.pow_le_mono_r with (c := 24); lia).
  - injection Hshr as <- <-.
    rewrite iter_shr_quot in Hm.
    assert (Hz : shr_m (shr_record_of_loc z l) = z) by (destruct l as [| []]; reflexivity).
    rewrite Hz in Hm.
    assert (Hpow : 0 < 2 ^ Zpos n) by (apply Z.pow_pos_nonneg; lia).
    destruct z as [| zp | zp].
    + rewrite Z.quot_0_l in Hm by lia. discriminate.
    + split; [| lia].
      rewrite Z.quot_div_nonneg in Hm by lia. rewrite <- Hm.
      apply Z.div_lt_upper_bound; [lia |].
      cbn [Zdigits2] in Hn. pose proof (digits2_pos_bound zp) as Hb.
      apply Z.lt_le_trans with (1 := Hb).
      change 16777216 with (2 ^ 24). rewrite <- Z.pow_add_r by lia.
      apply Z.pow_le_mono_r; lia.
    + exfalso. change (Z.neg zp) with (- Zpos zp) in Hm.
      rewrite Z.quot_opp_l in Hm by lia.
      assert (0 <= Zpos zp ÷ 2 ^ Zpos n) by (apply Z.quot_pos; lia). lia.
  - injection Hshr as <- <-.
    destruct l as [| []]; cbn [shr_record_of_loc shr_m] in Hm; subst z;
      cbn [Zdigits2] in Hn; pose proof (digits2_pos_bound m) as Hb;
      (split; [| lia]);
      (apply Z.lt_le_trans with (1 := Hb); apply Z.pow_le_mono_r with (c := 24); lia).
Qed.

Lemma binary_round_aux_bits (s : bool) (mx ex : Z) (lx : location) :
  is_float (Float32.bits_of_SF (binary_round_aux Float32.prec Float32.emax s mx ex lx)).
Proof.
  unfold binary_round_aux.
  destruct (shr_fexp Float32.prec Float32.emax mx ex lx) as [mrs' e'].
  destruct (shr_fexp Float32.prec Float32.emax
              (round_nearest_even (shr_m mrs') (loc_of_shr_record mrs')) e' loc_Exact)
    as [mrs'' e''] eqn:Hfinal.
  unfold is_float.
  destruct (shr_m mrs'') as [| m | m] eqn:Hm.
  - destruct s; cbn; lia.
  - destruct (shr_fexp_canonical _ _ _ _ _ _ Hfinal Hm) as [Hlt Hge].
    unfold Float32.emax, Float32.prec.
    destruct (Z.leb_spec e'' (128 - 24)).
    + unfold Float32.bits_of_SF, Float32.sign_bit. destruct s; lia.
    + destruct s; cbn; lia.
  - cbn; lia.
Qed.

Lemma of_decimal_bits (s : bool) (m e : Z) :
  is_float (Float32.bits_of_SF (Float32.of_decimal s m e)).
Proof.
  unfold Float32.of_decimal.
  destruct m as [| p | p]; try (destruct s; cbn; unfold is_float; lia).
  destruct (Z.pos p * 10 ^ Z.max e 0) as [| n | n];
    try (cbn; unfold is_float; lia).
  destruct (10 ^ Z.max (- e) 0) as [| d | d];
    try (cbn; unfold is_float; lia).
  unfold SFdiv.
  destruct (SFdiv_core_binary Float32.prec Float32.emax (Z.pos n) 0 (Z.pos d) 0)
    as [[mz ez] lz].
  apply binary_round_aux_bits.
Qed.

Lemma atof_is_float (v : list ascii) : is_float (LibC.atof v).
Proof.
  unfold LibC.atof.
  destruct (LibC.take_sign (LibC.skip_space v)) as [neg s1].
  destruct (LibC.has_word _ s1).
  { unfold is_float, Float32.bits_of_SF, Float32.sign_bit. destruct neg; lia. }
  destruct (LibC.has_word _ s1).
  { unfold is_float, Float32.bits_of_SF. lia. }
  destruct (LibC.read_digits s1 0 0) as [[ip ni] s2].
  destruct (match s2 with
            | "."%char :: r => LibC.read_digits r ip 0
            | _ => (ip, 0, s2)
            end) as [[m nf] s3].
  destruct (ni + nf =? 0); [unfold is_float, Float32.zero; lia |].
  apply of_decimal_bits.
Qed.

(** ** What a parse can return *)

Lemma to_uint8_range (x : Z) : is_uint8 (CInt.to_uint8 x).
Proof. unfold is_uint8, CInt.to_uint8. apply Z.mod_pos_bound. lia. Qed.

Lemma parsed_field_range
  (input : WString.t) (ta : Z) (m : CRUMBSMessage) (b : Board) (k : nat) :
  (k <= 9)%nat ->
  if float_field k
  then is_float (parsed_field k (fst (parseSerialInput input ta m b)))
  else is_uint8 (parsed_field k (fst (parseSerialInput input ta m b))).
Proof.
  intros Hk. rewrite parse_field by assumption.
  destruct (nth_error (fields input) k) as [v |] eqn:Hv.
  - unfold convert. destruct (float_field k).
    + apply atof_is_float.
    + apply to_uint8_range.
  - destruct k as [| k].
    + destruct (fields input) eqn:E; [now apply fields_not_nil in E | discriminate].
    + do 9 (destruct k as [| k];
            [cbn; unfold is_float, is_uint8, Float32.zero; lia |]).
      lia.
Qed.

Lemma parse_result_ranges
  (input : WString.t) (ta : Z) (m : CRUMBSMessage) (b : Board) :
  is_uint8 (snd (fst (fst (parseSerialInput input ta m b))))
  /\ is_uint8 (typeID (snd (fst (parseSerialInput input ta m b))))
  /\ is_uint8 (commandType (snd (fst (parseSerialInput input ta m b))))
  /\ is_uint8 (errorFlags (snd (fst (parseSerialInput input ta m b))))
  /\ Forall is_float (Data6.to_list (data (snd (fst (parseSerialInput input ta m b))))).
Proof.
  assert (H : forall k : nat, (k <= 9)%nat ->
                if float_field k
                then is_float (parsed_field k (fst (parseSerialInput input ta m b)))
                else is_uint8 (parsed_field k (fst (parseSerialInput input ta m b))))
    by (intros k Hk; now apply parsed_field_range).
  destruct (fst (parseSerialInput input ta m b)) as [[ok a] msg]. cbn [fst snd] in *.
  pose proof (H 0%nat ltac:(lia)) as H0. pose proof (H 1%nat ltac:(lia)) as H1.
  pose proof (H 2%nat ltac:(lia)) as H2. pose proof (H 3%nat ltac:(lia)) as H3.
  pose proof (H 4%nat ltac:(lia)) as H4. pose proof (H 5%nat ltac:(lia)) as H5.
  pose proof (H 6%nat ltac:(lia)) as H6. pose proof (H 7%nat ltac:(lia)) as H7.
  pose proof (H 8%nat ltac:(lia)) as H8. pose proof (H 9%nat ltac:(lia)) as H9.
  cbn [float_field parsed_field Nat.leb andb] in *.
  repeat (split; [assumption |]).
  unfold Data6.to_list; repeat (apply Forall_cons; [assumption |]); apply Forall_nil.
Qed.

(** X5. Whatever text the line holds, the address and the typeID,
    commandType and errorFlags a parse returns are bytes (0..255) and each
    of the six data slots is a 32-bit float pattern; when the caller's
    [sliceID] is a byte, the message returned is a valid message. *)
Theorem parse_returns_bytes_and_floats
  (input : WString.t) (ta : Z) (m : CRUMBSMessage) (b : Board) :
  let r := fst (parseSerialInput input ta m b) in
  is_uint8 (snd (fst r))
  /\ is_uint8 (typeID (snd r)) /\ is_uint8 (commandType (snd r))
  /\ is_uint8 (errorFlags (snd r))
  /\ Forall is_float (Data6.to_list (data (snd r)))
  /\ (is_uint8 (sliceID m) -> valid_message (snd r)).
Proof.
  intros r. unfold r.
  destruct (parse_result_ranges input ta m b) as (Ha & Ht & Hc & He & Hd).
  repeat (split; [assumption |]).
  intros Hslice. unfold valid_message. rewrite parse_sliceID.
  repeat (split; [assumption |]). assumption.
Qed.

Lemma parse_returns_bytes_and_floats_witness :
  valid_message (snd (fst (parseSerialInput (WString.lit "300,-1,1e60,nan,-7.5e-50")
                                            5 stale_message quiet_board))).
Proof.
  apply (parse_returns_bytes_and_floats (WString.lit "300,-1,1e60,nan,-7.5e-50")
           5 stale_message quiet_board).
  unfold is_uint8. simpl. lia.
Defined.

(** ** What a parse does not depend on *)

Lemma take_fields_first_address (fs : list (list ascii)) (ta ta' : Z) (m : CRUMBSMessage) :
  fs <> [] ->
  take_fields fs (Vars.mk 0 0 ta m) = take_fields fs (Vars.mk 0 0 ta' m).
Proof. destruct fs as [| f fs]; [congruence | reflexivity]. Qed.

(** X6. A parse does not depend on what the caller's variables held,
    [sliceID] apart: with the same [sliceID], two calls on the same line
    give the same result, address, message and console output, whatever the
    address variable and the other fields of the message were. *)
Theorem parse_forgets_stale_values
  (input : WString.t) (ta ta' : Z) (m m' : CRUMBSMessage) :
  sliceID m = sliceID m' ->
  parseSerialInput input ta m = parseSerialInput input ta' m'.
Proof.
  intros Hs. unfold parseSerialInput. f_equal.
  rewrite !parse_loop_fields, !init_message_eq, Hs. f_equal.
  apply take_fields_first_address, fields_not_nil.
Qed.

Lemma parse_forgets_stale_values_witness :
  parseSerialInput (WString.lit "8,1") 5 stale_message
  = parseSerialInput (WString.lit "8,1") 200 (mkMessage 7 0 0 Data6.zeros 0).
Proof.
  apply parse_forgets_stale_values. reflexivity.
Defined.

(** ** Where the loop cuts the line *)

Lemma fields_comma_free (f : list ascii) : comma_free f = true -> fields f = [f].
Proof.
  induction f as [| c f IH]; intros H; [reflexivity |].
  simpl in H. apply andb_true_iff in H. destruct H as [Hc Hf].
  apply negb_true_iff in Hc. simpl. now rewrite Hc, IH.
Qed.

Lemma fields_app_comma (f s : list ascii) :
  comma_free f = true -> fields (f ++ ","%char :: s) = f :: fields s.
Proof.
  induction f as [| c f IH]; intros H; [reflexivity |].
  simpl in H. apply andb_true_iff in H. destruct H as [Hc Hf].
  apply negb_true_iff in Hc. cbn [app fields]. now rewrite Hc, IH.
Qed.

Lemma fields_join (fs : list (list ascii)) :
  fs <> [] -> forallb comma_free fs = true -> fields (join fs) = fs.
Proof.
  induction fs as [| f fs IH]; intros Hne Hfree; [congruence |].
  simpl in Hfree. apply andb_true_iff in Hfree. destruct Hfree as [Hf Hfs].
  destruct fs as [| g fs].
  - now apply fields_comma_free.
  - change (join (f :: g :: fs)) with (f ++ ","%char :: join (g :: fs)).
    rewrite fields_app_comma by assumption.
    f_equal. apply IH; [discriminate | assumption].
Qed.

Lemma join_fields (s : list ascii) :
  join (fields s) = s /\ forallb comma_free (fields s) = true.
Proof.
  induction s as [| c s [IHj IHf]]; [split; reflexivity |].
  cbn [fields].
  destruct (Ascii.eqb_spec c ","%char) as [-> | Hc].
  - destruct (fields s) as [| g gs] eqn:E; [now apply fields_not_nil in E |].
    split.
    + change (join ([] :: g :: gs)) with (","%char :: join (g :: gs)). now rewrite IHj.
    + exact IHf.
  - destruct (fields s) as [| g gs] eqn:E; [now apply fields_not_nil in E |].
    split.
    + destruct gs as [| h gs].
      * simpl in *. now rewrite IHj.
      * change (join ((c :: g) :: h :: gs)) with (c :: join (g :: h :: gs)).
        now rewrite IHj.
    + simpl in *. apply andb_true_iff in IHf. destruct IHf as [Hg Hgs].
      rewrite Hg, Hgs. apply Ascii.eqb_neq in Hc. now rewrite Hc.
Qed.

(** X7. The loop cuts the line at its commas and nowhere else: on the line
    made of comma-free texts f1,...,fn joined by commas it hands exactly
    f1,...,fn to the [switch], in that order, and ends with [lastComma] one
    past the end of the line; and every line is such a join, of its own
    fields. *)
Theorem parse_cuts_at_commas_only :
  (forall (fs : list (list ascii)) (ta : Z) (m : CRUMBSMessage),
      fs <> [] -> forallb comma_free fs = true ->
      parse_loop (join fs) ta m
      = Vars.set_lastComma (WString.length (join fs) + 1)
          (take_fields fs (Vars.mk 0 0 ta (init_message m))))
  /\ (forall input : WString.t,
         join (fields input) = input /\ forallb comma_free (fields input) = true).
Proof.
  split.
  - intros fs ta m Hne Hfree. now rewrite parse_loop_fields, fields_join.
  - exact join_fields.
Qed.

Lemma parse_cuts_at_commas_only_witness :
  parse_loop (WString.lit "8,,1 2,") 5 stale_message
  = Vars.set_lastComma 8
      (take_fields [WString.lit "8"; []; WString.lit "1 2"; []]
                   (Vars.mk 0 0 5 (init_message stale_message))).
Proof.
  apply (proj1 parse_cuts_at_commas_only
               [WString.lit "8"; []; WString.lit "1 2"; []] 5 stale_message).
  - discriminate.
  - reflexivity.
Defined.

(** ** The receive buffer *)

Lemma uninitialised_nth (n i : nat) (junk : nat -> Z) :
  (i < n)%nat -> nth i (uninitialised n junk) 0 = junk i.
Proof.
  intros Hi. unfold uninitialised.
  rewrite (nth_indep _ 0 (junk 0%nat)) by (now rewrite length_map, length_seq).
  rewrite map_nth, seq_nth by assumption. reflexivity.
Qed.

(** X8. The receiving loop stays within the 28-byte buffer: the buffer
    keeps its 28 cells, the index ends as the number of bytes taken, 28 at
    most, cell i below the index holds byte i of what was waiting (cast to 8
    bits), and the cells from the index on still hold what they held
    before. *)
Theorem receive_stays_in_buffer (junk : nat -> Z) (b : Board) :
  let r := fst (receive 28 (uninitialised 28 junk) 0 b) in
  let taken := Nat.min 28 (List.length (wire_rx b)) in
  List.length (fst r) = 28%nat
  /\ snd r = Z.of_nat taken
  /\ (forall i : nat, (i < taken)%nat ->
        nth i (fst r) 0 = CInt.to_uint8 (nth i (wire_rx b) 0))
  /\ (forall i : nat, (taken <= i < 28)%nat -> nth i (fst r) 0 = junk i).
Proof.
  intros r taken. unfold r.
  pose proof (receive_run 28 [] (uninitialised 28 junk) b
                (uninitialised_length _ _) eq_refl) as Hrun.
  cbn [app List.length Z.of_nat] in Hrun. rewrite Hrun. clear Hrun.
  fold taken. cbn [fst snd].
  assert (Hlen : List.length (firstn taken (wire_rx b)) = taken)
    by (rewrite length_firstn; unfold taken; lia).
  split; [| split; [lia | split]].
  - rewrite length_app, length_map, Hlen, length_skipn, uninitialised_length.
    unfold taken. lia.
  - intros i Hi. rewrite app_nth1 by (now rewrite length_map, Hlen).
    rewrite (nth_indep _ 0 (CInt.to_uint8 0)) by (now rewrite length_map, Hlen).
    rewrite map_nth. f_equal.
    rewrite <- (firstn_skipn taken (wire_rx b)) at 2.
    now rewrite app_nth1 by (now rewrite Hlen).
  - intros i Hi. rewrite app_nth2 by (rewrite length_map, Hlen; lia).
    rewrite length_map, Hlen.
    rewrite <- (uninitialised_nth 28 i junk) by lia.
    rewrite <- (firstn_skipn taken (uninitialised 28 junk)) at 2.
    rewrite app_nth2; rewrite length_firstn, uninitialised_length; [| lia].
    f_equal. unfold taken. lia.
Qed.

(** ** Requests whose address is not a number *)

(** The bus side of a request line. *)
Lemma request_line_bus_events (junk : Indeterminate) (b : Board) :
  serial_rx b <> [] ->
  WString.startsWith (console_line b) (WString.lit "request=") = true ->
  bus_events (trace (snd (handleSerialInput junk b)))
  = bus_events (trace b)
    ++ [WireRequestFrom (request_address (WString.trim (skipn 8 (console_line b)))) 28;
        Delay 50]
    ++ map WireRead
         (firstn 28 (slave b (request_address
                                (WString.trim (skipn 8 (console_line b)))) 28)).
Proof.
  intros Hwait Hreq.
  rewrite (handleSerialInput_request junk b Hwait Hreq).
  cbv zeta. rewrite request_response_run. cbn [fst snd trace].
  rewrite !bus_events_app, bus_events_exchange, bus_events_report, app_nil_r.
  unfold exchange, collected, arrived. cbn [slave].
  change (Z.to_nat CRUMBS_MESSAGE_SIZE) with 28%nat.
  change CRUMBS_MESSAGE_SIZE with 28.
  rewrite firstn_min_length.
  cbn [bus_events filter is_print negb app]. rewrite app_nil_r. reflexivity.
Qed.

Lemma request_address_non_numeric (a : WString.t) :
  WString.startsWith a (WString.lit "0x") = false ->
  WString.startsWith a (WString.lit "0X") = false ->
  integer_text a = false ->
  request_address a = 0.
Proof.
  intros Hx HX Hnum. unfold request_address. rewrite Hx, HX. cbn [orb].
  now rewrite toInt_non_numeric.
Qed.

(** X9. A request line whose address text is not a number (empty, or
    starting with anything but digits, without [0x]) is not refused: the
    call requests 28 bytes from address 0. *)
Theorem request_without_number_asks_address_zero (junk : Indeterminate) (b : Board) :
  serial_rx b <> [] ->
  WString.startsWith (console_line b) (WString.lit "request=") = true ->
  let a := WString.trim (skipn 8 (console_line b)) in
  WString.startsWith a (WString.lit "0x") = false ->
  WString.startsWith a (WString.lit "0X") = false ->
  integer_text a = false ->
  bus_events (trace (snd (handleSerialInput junk b)))
  = bus_events (trace b)
    ++ [WireRequestFrom 0 28; Delay 50] ++ map WireRead (firstn 28 (slave b 0 28)).
Proof.
  intros Hwait Hreq a Hx HX Hnum.
  rewrite (request_line_bus_events junk b Hwait Hreq). fold a.
  now rewrite (request_address_non_numeric a Hx HX Hnum).
Qed.

Lemma request_without_number_asks_address_zero_witness :
  bus_events (trace (snd (handleSerialInput stale_locals
                            (console_board "request=" short_peripheral))))
  = [WireRequestFrom 0 28; Delay 50;
     WireRead 17; WireRead 34; WireRead 51; WireRead 68; WireRead 85].
Proof.
  apply (request_without_number_asks_address_zero stale_locals
           (console_board "request=" short_peripheral));
    (discriminate || reflexivity).
Defined.

(** ** Integer fields that start with a numeral *)

Lemma skip_space_blanks (blanks rest : list ascii) :
  forallb LibC.isspace blanks = true ->
  LibC.skip_space (blanks ++ rest) = LibC.skip_space rest.
Proof.
  induction blanks as [| c blanks IH]; intros H; [reflexivity |].
  simpl in H. apply andb_true_iff in H. destruct H as [Hc H].
  simpl. rewrite Hc. now apply IH.
Qed.

Lemma atol_numeral (blanks : list ascii) (neg : bool) (ds tail : list ascii) :
  forallb LibC.isspace blanks = true ->
  ds <> [] -> forallb LibC.isdigit ds = true -> stops LibC.isdigit tail = true ->
  dec_value ds <= CInt.LONG_MAX ->
  CInt.to_uint8 (LibC.atol (blanks ++ minus neg ++ ds ++ tail))
  = (if neg then - dec_value ds else dec_value ds) mod 256.
Proof.
  intros Hb Hne Hds Htail Hmax.
  pose proof (dec_value_nonneg ds Hds) as Hpos.
  unfold LibC.atol.
  rewrite skip_space_blanks by assumption.
  destruct ds as [| c ds]; [congruence |].
  assert (Hc : LibC.isdigit c = true)
    by (simpl in Hds; now apply andb_true_iff in Hds).
  destruct neg; cbn [minus app].
  - assert (Hsign : LibC.take_sign (LibC.skip_space ("-"%char :: c :: ds ++ tail))
                    = (true, c :: ds ++ tail)) by reflexivity.
    rewrite Hsign.
    change (c :: ds ++ tail) with ((c :: ds) ++ tail).
    rewrite read_digits_numeral by assumption.
    fold (numeral 10 (map LibC.digit_value (c :: ds))). fold (dec_value (c :: ds)).
    rewrite wrap_long_small
      by (unfold CInt.LONG_MIN, CInt.LONG_MAX in *; lia).
    reflexivity.
  - rewrite (digit_starts_number c (ds ++ tail) Hc).
    change (c :: ds ++ tail) with ((c :: ds) ++ tail).
    rewrite read_digits_numeral by assumption.
    fold (numeral 10 (map LibC.digit_value (c :: ds))). fold (dec_value (c :: ds)).
    rewrite wrap_long_small
      by (unfold CInt.LONG_MIN, CInt.LONG_MAX in *; lia).
    reflexivity.
Qed.

(** X10. An integer field (address, typeID, commandType, errorFlags) that
    starts, after optional blanks and an optional minus sign, with a decimal
    numeral within the range of [long] is parsed as the value of that
    numeral, negated after a minus sign, reduced modulo 256; what follows
    the digits is ignored. *)
Theorem parse_integer_field_wraps_to_a_byte
  (input : WString.t) (ta : Z) (m : CRUMBSMessage) (b : Board)
  (k : nat) (blanks : list ascii) (neg : bool) (ds tail : list ascii) :
  (k <= 9)%nat -> float_field k = false ->
  nth_error (fields input) k = Some (blanks ++ minus neg ++ ds ++ tail) ->
  forallb LibC.isspace blanks = true ->
  ds <> [] -> forallb LibC.isdigit ds = true -> stops LibC.isdigit tail = true ->
  dec_value ds <= CInt.LONG_MAX ->
  parsed_field k (fst (parseSerialInput input ta m b))
  = (if neg then - dec_value ds else dec_value ds) mod 256.
Proof.
  intros Hk Hint Hv Hb Hne Hds Htail Hmax.
  rewrite parse_field, Hv by assumption.
  unfold convert. rewrite Hint.
  now apply atol_numeral.
Qed.

Lemma parse_integer_field_wraps_to_a_byte_witness :
  parsed_field 0 (fst (parseSerialInput (WString.lit " 264x,-1,1,2")
                                        5 stale_message quiet_board)) = 264 mod 256
  /\ parsed_field 1 (fst (parseSerialInput (WString.lit " 264x,-1,1,2")
                                           5 stale_message quiet_board)) = (- 1) mod 256.
Proof.
  split.
  - apply (parse_integer_field_wraps_to_a_byte (WString.lit " 264x,-1,1,2")
             5 stale_message quiet_board 0 (WString.lit " ") false
             (WString.lit "264") (WString.lit "x"));
      (lia || discriminate || reflexivity).
  - apply (parse_integer_field_wraps_to_a_byte (WString.lit " 264x,-1,1,2")
             5 stale_message quiet_board 1 [] true (WString.lit "1") []);
      (lia || discriminate || reflexivity).
Defined.

(** ** A parsed message sent and read back *)

Lemma decodeMessage_encodeMessage (m : CRUMBSMessage) :
  Forall is_float (Data6.to_list (data m)) ->
  Codec.decodeMessage (Codec.encodeMessage m) 28 = Some m.
Proof.
  intros Hd. destruct m as [s t c [a0 a1 a2 a3 a4 a5] e].
  unfold Data6.to_list in Hd; cbn [data Data6.d0 Data6.d1 Data6.d2 Data6.d3 Data6.d4 Data6.d5] in Hd.
  repeat match goal with
         | H : Forall _ (_ :: _) |- _ => inversion H; subst; clear H
         end.
  change (Codec.decodeMessage
            (Codec.encodeMessage (mkMessage s t c (Data6.mk a0 a1 a2 a3 a4 a5) e)) 28)
    with (Some (mkMessage s t c
                  (Data6.mk (Codec.le_word (Codec.le_bytes a0 ++ []) 0)
                            (Codec.le_word (Codec.le_bytes a1 ++ []) 0)
                            (Codec.le_word (Codec.le_bytes a2 ++ []) 0)
                            (Codec.le_word (Codec.le_bytes a3 ++ []) 0)
                            (Codec.le_word (Codec.le_bytes a4 ++ []) 0)
                            (Codec.le_word (Codec.le_bytes a5 ++ []) 0)) e)).
  now rewrite !le_word_le_bytes.
Qed.

Lemma to_uint8_of_byte (x : Z) : is_uint8 x -> CInt.to_uint8 x = x.
Proof. unfold is_uint8, CInt.to_uint8. intros H. now apply Z.mod_small. Qed.

Lemma encodeMessage_bytes (m : CRUMBSMessage) :
  valid_message m -> map CInt.to_uint8 (Codec.encodeMessage m) = Codec.encodeMessage m.
Proof.
  intros (Hs & Ht & Hc & _ & He).
  destruct m as [s t c [a0 a1 a2 a3 a4 a5] e]. cbn [sliceID typeID commandType errorFlags] in *.
  unfold Codec.encodeMessage, Data6.to_list, Codec.le_bytes.
  cbn [sliceID typeID commandType errorFlags data Data6.d0 Data6.d1 Data6.d2 Data6.d3
       Data6.d4 Data6.d5 flat_map app map].
  rewrite !to_uint8_of_byte by (assumption || (unfold is_uint8; apply Z.mod_pos_bound; lia)).
  reflexivity.
Qed.

(** X11. A parsed message survives the bus: when a peripheral answers a
    read request with the 28 bytes of the encoding of a message that
    [parseSerialInput] returned (the caller's [sliceID] being a byte),
    followed by any further bytes, the request branch decodes exactly that
    message and leaves the further bytes in the receive buffer. *)
Theorem parsed_message_survives_the_bus
  (junk : Indeterminate) (input : WString.t) (ta : Z) (m : CRUMBSMessage)
  (b b' : Board) (address : Z) (extra : list Z) :
  is_uint8 (sliceID m) ->
  slave b' address 28
  = Codec.encodeMessage (snd (fst (parseSerialInput input ta m b))) ++ extra ->
  fst (request_response junk address b')
  = Some (snd (fst (parseSerialInput input ta m b)))
  /\ wire_rx (snd (request_response junk address b')) = extra.
Proof.
  intros Hslice Hecho.
  assert (Hvalid : valid_message (snd (fst (parseSerialInput input ta m b)))).
  { destruct (parse_result_ranges input ta m b) as (_ & Ht & Hc & He & Hd).
    unfold valid_message. rewrite parse_sliceID.
    repeat (split; [assumption |]). assumption. }
  set (msg := snd (fst (parseSerialInput input ta m b))) in *.
  rewrite request_response_run. cbn [fst snd wire_rx].
  assert (Hk : collected b' address = 28%nat).
  { unfold collected, arrived. change CRUMBS_MESSAGE_SIZE with 28.
    rewrite Hecho, length_app.
    change (List.length (Codec.encodeMessage msg)) with 28%nat.
    change (Z.to_nat 28) with 28%nat. lia. }
  assert (Hfirst : firstn 28 (arrived b' address) = Codec.encodeMessage msg).
  { unfold arrived. change CRUMBS_MESSAGE_SIZE with 28. rewrite Hecho.
    rewrite firstn_app.
    change (List.length (Codec.encodeMessage msg)) with 28%nat.
    rewrite Nat.sub_diag, firstn_O, app_nil_r. apply firstn_all2.
    change (List.length (Codec.encodeMessage msg)) with 28%nat. lia. }
  split.
  - unfold filled_buffer. rewrite Hk, Hfirst, encodeMessage_bytes by assumption.
    change (Z.to_nat CRUMBS_MESSAGE_SIZE) with 28%nat.
    rewrite skipn_all2 by (rewrite uninitialised_length; lia).
    rewrite app_nil_r. apply decodeMessage_encodeMessage.
    now destruct Hvalid as (_ & _ & _ & Hd & _).
  - rewrite Hk. unfold arrived. change CRUMBS_MESSAGE_SIZE with 28. rewrite Hecho.
    rewrite skipn_app.
    change (List.length (Codec.encodeMessage msg)) with 28%nat.
    rewrite Nat.sub_diag, skipn_O.
    rewrite skipn_all2 by (change (List.length (Codec.encodeMessage msg)) with 28%nat; lia).
    reflexivity.
Qed.

Lemma parsed_message_survives_the_bus_witness :
  fst (request_response stale_locals 8
         (console_board ""
            (echo_peripheral
               (snd (fst (parseSerialInput
                            (WString.lit "8,1,1,75.0,1.0,0.0,65.0,2.0,7.0,0")
                            5 stale_message quiet_board))))))
  = Some (snd (fst (parseSerialInput (WString.lit "8,1,1,75.0,1.0,0.0,65.0,2.0,7.0,0")
                                     5 stale_message quiet_board))).
Proof.
  apply (parsed_message_survives_the_bus stale_locals
           (WString.lit "8,1,1,75.0,1.0,0.0,65.0,2.0,7.0,0") 5 stale_message quiet_board
           (console_board "" (echo_peripheral
               (snd (fst (parseSerialInput
                            (WString.lit "8,1,1,75.0,1.0,0.0,65.0,2.0,7.0,0")
                            5 stale_message quiet_board)))))
           8 [0]).
  - unfold is_uint8. simpl. lia.
  - reflexivity.
Defined.

(** ** Rounds of [loop] *)

Lemma transactions_app (t u : list event) :
  transactions (t ++ u) = (transactions t + transactions u)%nat.
Proof. unfold transactions. now rewrite filter_app, length_app. Qed.

Lemma transactions_prints (t : list event) : bus_events t = [] -> transactions t = 0%nat.
Proof.
  unfold transactions, bus_events.
  induction t as [| e t IH]; [reflexivity |].
  destruct e; simpl; intros H; try discriminate; now apply IH.
Qed.

Lemma transactions_reads (l : list Z) : transactions (map WireRead l) = 0%nat.
Proof. induction l as [| x l IH]; [reflexivity | exact IH]. Qed.

Lemma transactions_exchange (b : Board) (address : Z) :
  transactions (exchange b address) = 1%nat.
Proof.
  unfold exchange. rewrite transactions_app, transactions_reads. reflexivity.
Qed.

Lemma transactions_report (d : option CRUMBSMessage) :
  transactions (response_report d) = 0%nat.
Proof. apply transactions_prints, bus_events_report. Qed.

Lemma transactions_parse_console (st : Vars.t) : transactions (parse_console st) = 0%nat.
Proof. apply transactions_prints, bus_events_parse_console. Qed.

(** One call: the console loses its first line, the peripheral stays, and
    the bus sees one transaction at most. *)
Lemma handleSerialInput_round (junk : Indeterminate) (b : Board) :
  serial_rx b <> [] ->
  serial_rx (snd (handleSerialInput junk b))
  = snd (Serial.split_at "010"%char (serial_rx b))
  /\ slave (snd (handleSerialInput junk b)) = slave b
  /\ (transactions (trace (snd (handleSerialInput junk b)))
      <= transactions (trace b) + 1)%nat.
Proof.
  intros Hwait.
  destruct (WString.startsWith (console_line b) (WString.lit "request=")) eqn:Hreq.
  - rewrite (handleSerialInput_request junk b Hwait Hreq).
    cbv zeta. rewrite request_response_run. cbn [fst snd serial_rx slave trace].
    repeat split.
    rewrite !transactions_app, transactions_exchange, transactions_report.
    cbn. lia.
  - rewrite (handleSerialInput_command junk b Hwait Hreq).
    cbn [snd serial_rx slave trace]. repeat split.
    rewrite !transactions_app, transactions_parse_console.
    unfold command_outcome. destruct (4 <=? Vars.fieldCount _); cbn; lia.
Qed.

Lemma handleSerialInput_idle (junk : Indeterminate) (b : Board) :
  serial_rx b = [] -> handleSerialInput junk b = (tt, b).
Proof.
  intros Hempty. unfold handleSerialInput, bind, Serial.available. now rewrite Hempty.
Qed.

(** X13. Rounds of [loop] take the console lines in order, one line per
    round: after as many rounds as there are newline-ended lines waiting,
    what follows those lines is what is left on the console, the peripheral
    is unchanged and the bus has seen at most one transaction per line; and
    with an empty console any number of rounds changes nothing. *)
Theorem loop_takes_one_line_per_round :
  (forall (lines : list (list ascii)) (junks : list Indeterminate)
          (rest : list ascii) (b : Board),
      forallb newline_free lines = true ->
      List.length junks = List.length lines ->
      serial_rx b = typed lines ++ rest ->
      serial_rx (run_loop junks b) = rest
      /\ slave (run_loop junks b) = slave b
      /\ (transactions (trace (run_loop junks b))
          <= transactions (trace b) + List.length lines)%nat)
  /\ (forall (junks : list Indeterminate) (b : Board),
         serial_rx b = [] -> run_loop junks b = b).
Proof.
  split.
  - induction lines as [| line lines IH]; intros junks rest b Hfree Hlen Hrx.
    + destruct junks; [| discriminate]. cbn [run_loop typed flat_map app] in *.
      repeat split; [assumption | lia].
    + destruct junks as [| junk junks]; [discriminate |].
      simpl in Hfree. apply andb_true_iff in Hfree. destruct Hfree as [Hline Hfree].
      cbn [run_loop]. unfold loop.
      assert (Hrx' : serial_rx b = line ++ "010"%char :: typed lines ++ rest).
      { rewrite Hrx. cbn [typed flat_map]. fold (typed lines).
        now rewrite <- !app_assoc. }
      assert (Hwait : serial_rx b <> []) by (rewrite Hrx'; now destruct line).
      destruct (handleSerialInput_round junk b Hwait) as (Hs & Hsl & Htr).
      rewrite Hrx', split_at_newline in Hs by assumption. cbn [snd] in Hs.
      destruct (IH junks rest (snd (handleSerialInput junk b)) Hfree
                   ltac:(simpl in Hlen; lia) Hs) as (H1 & H2 & H3).
      repeat split; [assumption | congruence | simpl List.length; lia].
  - induction junks as [| junk junks IH]; intros b Hempty; [reflexivity |].
    cbn [run_loop]. unfold loop.
    rewrite handleSerialInput_idle by assumption. now apply IH.
Qed.

Lemma loop_takes_one_line_per_round_witness :
  serial_rx (run_loop [stale_locals; stale_locals; stale_locals]
               (console_board "8,1,1,75.0
request=8

tail" short_peripheral))
  = WString.lit "tail".
Proof.
  apply (proj1 loop_takes_one_line_per_round
               [WString.lit "8,1,1,75.0"; WString.lit "request=8"; []]
               [stale_locals; stale_locals; stale_locals]
               (WString.lit "tail")
               (console_board "8,1,1,75.0
request=8

tail" short_peripheral)); reflexivity.
Defined.

(** ** What the locals held before the call *)

Lemma parse_loop_stale (input : WString.t) (ta ta' : Z) (m m' : CRUMBSMessage) :
  sliceID m = sliceID m' -> parse_loop input ta m = parse_loop input ta' m'.
Proof.
  intros Hs. rewrite !parse_loop_fields, !init_message_eq, Hs. f_equal.
  apply take_fields_first_address, fields_not_nil.
Qed.

Lemma filled_buffer_full (junk junk' : Indeterminate) (b : Board) (address : Z) :
  collected b address = 28%nat ->
  filled_buffer junk b address = filled_buffer junk' b address.
Proof.
  intros Hk. unfold filled_buffer. rewrite Hk.
  change (Z.to_nat CRUMBS_MESSAGE_SIZE) with 28%nat.
  now rewrite !skipn_all2 by (rewrite uninitialised_length; lia).
Qed.

Lemma request_response_stale (junk junk' : Indeterminate) (address : Z) (b : Board) :
  request_response junk address b = request_response junk' address b.
Proof.
  rewrite !request_response_run. cbv zeta.
  assert (Hd : Codec.decodeMessage (filled_buffer junk b address)
                                   (Z.of_nat (collected b address))
               = Codec.decodeMessage (filled_buffer junk' b address)
                                     (Z.of_nat (collected b address))).
  { destruct (Nat.eq_dec (collected b address) 28) as [Hk | Hk].
    - now rewrite (filled_buffer_full junk junk' b address Hk).
    - rewrite !decodeMessage_short; [reflexivity | |];
        unfold collected in *; change (Z.to_nat CRUMBS_MESSAGE_SIZE) with 28%nat in *;
        change CRUMBS_MESSAGE_SIZE with 28; lia. }
  now rewrite Hd.
Qed.

(** X14. Of all that the uninitialised locals of [handleSerialInput] may
    hold (the response buffer, the address, the message), only the
    [sliceID] of the message can show: two calls on the same board whose
    message variables agree on [sliceID] end in the same board. *)
Theorem only_sliceID_leaks_from_the_locals (junk junk' : Indeterminate) (b : Board) :
  sliceID (message0 junk) = sliceID (message0 junk') ->
  handleSerialInput junk b = handleSerialInput junk' b.
Proof.
  intros Hs.
  destruct (serial_rx b) as [| c0 rx0] eqn:Hrx.
  - now rewrite !handleSerialInput_idle.
  - assert (Hwait : serial_rx b <> []) by (rewrite Hrx; discriminate).
    destruct (WString.startsWith (console_line b) (WString.lit "request=")) eqn:Hreq.
    + rewrite !(handleSerialInput_request _ b Hwait Hreq). cbv zeta.
      now rewrite (request_response_stale junk junk').
    + rewrite !(handleSerialInput_command _ b Hwait Hreq).
      now rewrite (parse_loop_stale _ (targetAddress0 junk) (targetAddress0 junk')
                                    (message0 junk) (message0 junk') Hs).
Qed.

Lemma only_sliceID_leaks_from_the_locals_witness :
  handleSerialInput stale_locals (console_board "8,1,1,75.0" short_peripheral)
  = handleSerialInput (mkIndeterminate (fun _ => 0) 0 (mkMessage 7 0 0 Data6.zeros 0))
                      (console_board "8,1,1,75.0" short_peripheral).
Proof.
  apply only_sliceID_leaks_from_the_locals. reflexivity.
Defined.

(** ** Every field of the result *)

(** X15. Every one of the ten fields of what a parse returns, on success
    and on failure alike, is the conversion of the line's field at that
    position when the line has one ([toFloat] for data0..data5, [toInt]
    cast to 8 bits for the others), and 0 when it has none. *)
Theorem parse_converts_field_by_field
  (input : WString.t) (ta : Z) (m : CRUMBSMessage) (b : Board) (k : nat) :
  (k <= 9)%nat ->
  parsed_field k (fst (parseSerialInput input ta m b))
  = match nth_error (fields input) k with
    | Some v => convert k v
    | None => 0
    end.
Proof.
  intros Hk. rewrite parse_field by assumption.
  destruct (nth_error (fields input) k) as [v |] eqn:Hv; [reflexivity |].
  destruct k as [| k].
  - destruct (fields input) eqn:E; [now apply fields_not_nil in E | discriminate].
  - do 9 (destruct k as [| k]; [reflexivity |]). lia.
Qed.

Lemma parse_converts_field_by_field_witness :
  parsed_field 1 (fst (parseSerialInput (WString.lit "8,1") 5 stale_message quiet_board))
  = convert 1 (WString.lit "1")
  /\ parsed_field 2 (fst (parseSerialInput (WString.lit "8,1") 5 stale_message quiet_board))
     = 0.
Proof.
  split.
  - apply (parse_converts_field_by_field (WString.lit "8,1") 5 stale_message quiet_board 1).
    lia.
  - apply (parse_converts_field_by_field (WString.lit "8,1") 5 stale_message quiet_board 2).
    lia.
Defined.
